(* ===================================================================== *)
(* Node field of the details page: src/src/details-scene.js              *)
(*                                                                       *)
(* The development embeds the two operations of the node field           *)
(*   - onMouseClick  (lines 276-314, with closeReadingPane 265-274)      *)
(*   - animate       (lines 325-437)                                     *)
(* together with the node construction of lines 164-211, and proves the  *)
(* properties the specification states about them.                       *)
(*                                                                       *)
(* Numbers.  A JavaScript number is modelled by [num]: a real number or  *)
(* one of the IEEE special values +Infinity, -Infinity and NaN.  The     *)
(* arithmetic is exact on the finite part (rounding, overflow and the    *)
(* sign of zero are not modelled) and follows IEEE 754 on the special    *)
(* values, so a quotient 0/0 is NaN here as it is in the browser.  One   *)
(* effect of the finite precision is modelled, because it decides what   *)
(* the code does next: the squares dx * dx, dy * dy, dz * dz of the      *)
(* squared distance are 0 when they underflow, which makes the divisor   *)
(* of the repulsion 0 for two nodes that are very close together.        *)
(*                                                                       *)
(* Objects.  The `nodes` array is a list; a reference to a group is its  *)
(* index in that array.  In-place mutation of `nodes[i]` is [alter] at   *)
(* index i.  The material shared by all crystal cores is a field of the  *)
(* scene state, not of a node.                                           *)
(*                                                                       *)
(* Effects.  A function that can throw returns a [result].  The part of  *)
(* the document the scene reads and writes is a field of the state.      *)
(* What the scene tells the reading pane (show this section, hide) is    *)
(* returned by the click handler next to the new state.  The handler     *)
(* takes the answer of the ray caster as its input; a frame takes the    *)
(* elapsed time.  Rendering and the scheduling of the next frame are     *)
(* outside the model.                                                    *)
(* ===================================================================== *)

From Stdlib Require Import Reals Lra Lia ZArith String Bool.
From stdpp Require Import base list.

Open Scope string_scope.
Open Scope list_scope.
Open Scope R_scope.

(* --------------------------------------------------------------------- *)
(* 1. Numbers                                                            *)
(* --------------------------------------------------------------------- *)

Inductive num : Type :=
  | Fin (r : R)
  | PInf
  | NInf
  | NaN.

Definition finite (a : num) : Prop :=
  match a with Fin _ => True | _ => False end.

(* unary minus *)
Definition jneg (a : num) : num :=
  match a with
  | Fin r => Fin (- r)
  | PInf => NInf
  | NInf => PInf
  | NaN => NaN
  end.

(* a + b *)
Definition jadd (a b : num) : num :=
  match a, b with
  | NaN, _ | _, NaN => NaN
  | Fin r, Fin s => Fin (r + s)
  | PInf, NInf | NInf, PInf => NaN
  | PInf, _ | _, PInf => PInf
  | NInf, _ | _, NInf => NInf
  end.

(* a - b, which IEEE defines as a + (-b) *)
Definition jsub (a b : num) : num := jadd a (jneg b).

(* an infinity with the sign of [r]; NaN when r = 0 (Infinity * 0) *)
Definition inf_times (positive : bool) (r : R) : num :=
  if Rlt_dec 0 r then (if positive then PInf else NInf)
  else if Rlt_dec r 0 then (if positive then NInf else PInf)
  else NaN.

(* a * b *)
Definition jmul (a b : num) : num :=
  match a, b with
  | NaN, _ | _, NaN => NaN
  | Fin r, Fin s => Fin (r * s)
  | PInf, Fin s | Fin s, PInf => inf_times true s
  | NInf, Fin s | Fin s, NInf => inf_times false s
  | PInf, PInf | NInf, NInf => PInf
  | PInf, NInf | NInf, PInf => NInf
  end.

(* The least positive double, 2^-1074.  A product of doubles whose
   absolute value is at most half of it is rounded to zero. *)
Definition leastDouble : R := / 2 ^ 1074.

(* The least positive normal double, 2^-1022.  From there on a product
   is rounded with a relative error of 2^-53 at most. *)
Definition leastNormal : R := / 2 ^ 1022.

(* a * a where the result decides a branch or a divisor: the product
   with its underflow to +0.  Above the underflow the square is taken as
   exact, like every other product. *)
Definition jsquare (a : num) : num :=
  match a with
  | Fin r => if Rle_dec (r * r) (leastDouble / 2) then Fin 0 else Fin (r * r)
  | _ => jmul a a
  end.

(* a / b.  A zero divisor is taken as +0: the only divisor in the scene
   is a square root of a sum of squares, which is never -0. *)
Definition jdiv (a b : num) : num :=
  match a, b with
  | NaN, _ | _, NaN => NaN
  | Fin r, Fin s =>
      if Req_dec_T s 0 then
        (if Rlt_dec 0 r then PInf else if Rlt_dec r 0 then NInf else NaN)
      else Fin (r / s)
  | Fin _, PInf | Fin _, NInf => Fin 0
  | PInf, Fin s => if Rlt_dec s 0 then NInf else PInf
  | NInf, Fin s => if Rlt_dec s 0 then PInf else NInf
  | PInf, PInf | PInf, NInf | NInf, PInf | NInf, NInf => NaN
  end.

(* Math.sqrt *)
Definition jsqrt (a : num) : num :=
  match a with
  | Fin r => if Rlt_dec r 0 then NaN else Fin (sqrt r)
  | PInf => PInf
  | NInf => NaN
  | NaN => NaN
  end.

(* a < b; every comparison with NaN is false *)
Definition jlt (a b : num) : bool :=
  match a, b with
  | NaN, _ | _, NaN => false
  | Fin r, Fin s => if Rlt_dec r s then true else false
  | NInf, Fin _ | NInf, PInf | Fin _, PInf => true
  | _, _ => false
  end.

(* a > b *)
Definition jgt (a b : num) : bool := jlt b a.

(* THREE.MathUtils.lerp(x, y, t) = (1 - t) * x + t * y *)
Definition lerp (x y t : num) : num :=
  jadd (jmul (jsub (Fin 1) t) x) (jmul t y).

(* --------------------------------------------------------------------- *)
(* 2. Vectors, nodes, the scene state                                    *)
(* --------------------------------------------------------------------- *)

Record Vector3 : Type := mkVector3 { x : num; y : num; z : num }.

(* THREE.Vector3.add: componentwise sum, in place *)
Definition vadd (a b : Vector3) : Vector3 :=
  mkVector3 (jadd (x a) (x b)) (jadd (y a) (y b)) (jadd (z a) (z b)).

Definition vsub (a b : Vector3) : Vector3 :=
  mkVector3 (jsub (x a) (x b)) (jsub (y a) (y b)) (jsub (z a) (z b)).

Definition vneg (a : Vector3) : Vector3 :=
  mkVector3 (jneg (x a)) (jneg (y a)) (jneg (z a)).

Definition vdot (a b : Vector3) : num :=
  jadd (jadd (jmul (x a) (x b)) (jmul (y a) (y b))) (jmul (z a) (z b)).

Definition vfinite (a : Vector3) : Prop :=
  finite (x a) /\ finite (y a) /\ finite (z a).

(* group.quaternion.  THREE.Quaternion.slerp belongs to the three.js
   library: its result is kept symbolic, as the quaternion, the target
   and the factor it was called with. *)
Inductive Quaternion : Type :=
  | mkQuaternion (qx qy qz qw : num)
  | slerp (q target : Quaternion) (t : num).

(* One floating document node: the THREE.Group of lines 168-209 with its
   userData, the rotation of its crystal and the opacities of the crystal
   material (cloned per node, line 171) and of the label sprite. *)
Record Node : Type := mkNode {
  id : nat;                     (* group.id *)
  position : Vector3;           (* group.position *)
  quaternion : Quaternion;      (* group.quaternion *)
  velocity : Vector3;           (* userData.velocity *)
  rotationSpeed : num;          (* userData.rotationSpeed *)
  originalSectionId : string;   (* userData.originalSectionId *)
  titleText : string;           (* userData.titleText *)
  isFrozen : bool;              (* userData.isFrozen *)
  crystalRotationX : num;       (* userData.crystalMesh.rotation.x *)
  crystalRotationY : num;       (* userData.crystalMesh.rotation.y *)
  crystalOpacity : num;         (* crystal.material.opacity *)
  spriteOpacity : num           (* sprite.material.opacity *)
}.

Definition set_velocity (v : Vector3) (n : Node) : Node :=
  mkNode (id n) (position n) (quaternion n) v (rotationSpeed n)
         (originalSectionId n) (titleText n) (isFrozen n)
         (crystalRotationX n) (crystalRotationY n)
         (crystalOpacity n) (spriteOpacity n).

Definition set_position (p : Vector3) (n : Node) : Node :=
  mkNode (id n) p (quaternion n) (velocity n) (rotationSpeed n)
         (originalSectionId n) (titleText n) (isFrozen n)
         (crystalRotationX n) (crystalRotationY n)
         (crystalOpacity n) (spriteOpacity n).

Definition set_isFrozen (b : bool) (n : Node) : Node :=
  mkNode (id n) (position n) (quaternion n) (velocity n) (rotationSpeed n)
         (originalSectionId n) (titleText n) b
         (crystalRotationX n) (crystalRotationY n)
         (crystalOpacity n) (spriteOpacity n).

(* The reading pane: the three style properties the scene writes. *)
Record PaneStyle : Type := mkPaneStyle {
  paneOpacity : string;
  panePointerEvents : string;
  paneTransform : string
}.

Definition paneHidden : PaneStyle :=
  mkPaneStyle "0" "none" "translate(-50%, -50%) scale(0.9)".

Definition paneShown : PaneStyle :=
  mkPaneStyle "1" "auto" "translate(-50%, -50%) scale(1)".

(* The part of the document the scene reads and writes: the elements
   that carry an id, in document order, each with its innerHTML; the
   innerHTML of #reading-content when that element exists; the style of
   #reading-pane. *)
Record Document : Type := mkDocument {
  elements : list (string * string);
  readingContent : option string;
  readingPane : PaneStyle
}.

(* document.getElementById(id): first element with that id, or null *)
Fixpoint getElementById (els : list (string * string)) (i : string)
  : option string :=
  match els with
  | [] => None
  | (k, html) :: rest => if String.eqb k i then Some html else getElementById rest i
  end.

Record State : Type := mkState {
  nodes : list Node;               (* the `nodes` array *)
  activeNodeGroup : option nat;    (* null, or a reference into `nodes` *)
  coreOpacity : num;               (* crystalCoreMat.opacity, shared by all cores *)
  starFieldRotationY : num;        (* starField.rotation.y *)
  document : Document
}.

(* What the presentation layer is told: the block of writes that fills
   and reveals the pane (lines 304-307) is a [ShowContent] carrying the
   section id; the block that hides it (lines 271-273) is a
   [HideContent]. *)
Inductive Notification : Type :=
  | ShowContent (sectionId : string)
  | HideContent.

(* The objects of the scene graph a ray can meet or a parent link can
   reach.  [GroupObj i] is nodes[i]; its children are [CrystalObj i] and
   [SpriteObj i] (lines 174, 185); [CoreObj i] is the child of the
   crystal (line 173). *)
Inductive Object3D : Type :=
  | SceneObj
  | StarFieldObj
  | NodesGroupObj
  | GroupObj (i : nat)
  | CrystalObj (i : nat)
  | SpriteObj (i : nat)
  | CoreObj (i : nat).

(* object.parent *)
Definition parent (o : Object3D) : option Object3D :=
  match o with
  | SceneObj => None
  | StarFieldObj => Some SceneObj
  | NodesGroupObj => Some SceneObj
  | GroupObj _ => Some NodesGroupObj
  | CrystalObj i => Some (GroupObj i)
  | SpriteObj i => Some (GroupObj i)
  | CoreObj i => Some (CrystalObj i)
  end.

(* --------------------------------------------------------------------- *)
(* 3. Exceptions                                                         *)
(* --------------------------------------------------------------------- *)

Inductive result (A : Type) : Type :=
  | Ok (a : A)
  | Throw (msg : string).
Arguments Ok {A} a.
Arguments Throw {A} msg.

Definition bind {A B : Type} (r : result A) (k : A -> result B) : result B :=
  match r with
  | Ok a => k a
  | Throw m => Throw m
  end.

Notation "'let!' v ':=' r 'in' k" := (bind r (fun v => k))
  (at level 10, v name, r at level 200, k at level 200).

(* reading a property of `null` or `undefined` *)
Definition deref {A : Type} (o : option A) : result A :=
  match o with
  | Some a => Ok a
  | None => Throw "TypeError"
  end.

(* for (let k = lo; k < hi; k++) body; [count] is hi - lo *)
Fixpoint forRange {A : Type} (count k : nat) (body : nat -> A -> result A) (a : A)
  : result A :=
  match count with
  | O => Ok a
  | S c => let! a' := body k a in forRange c (S k) body a'
  end.

Definition forLoop {A : Type} (lo hi : nat) (body : nat -> A -> result A) (a : A)
  : result A :=
  forRange (hi - lo) lo body a.

(* --------------------------------------------------------------------- *)
(* 4. Construction of the nodes (lines 93-211) and of the pane (218-263) *)
(* --------------------------------------------------------------------- *)

Definition identityQuaternion : Quaternion :=
  mkQuaternion (Fin 0) (Fin 0) (Fin 0) (Fin 1).

(* (Math.random() - 0.5) * k *)
Definition spread (r : num) (k : R) : num := jmul (jsub r (Fin 0.5)) (Fin k).

(* The body of sections.forEach for the section number [index]: [gid] is
   the id three.js gives the new group, [rnd] the successive results of
   Math.random(), seven per node in the order of the calls. *)
Definition createNode (index : nat) (section : string * string)
    (gid : nat -> nat) (rnd : nat -> num) : Node :=
  let r k := rnd (7 * index + k)%nat in
  mkNode (gid index)
         (mkVector3 (spread (r 0%nat) 40) (spread (r 1%nat) 25) (spread (r 2%nat) 20))
         identityQuaternion
         (mkVector3 (spread (r 3%nat) 0.0015) (spread (r 4%nat) 0.0015)
                    (spread (r 5%nat) 0.0015))
         (jadd (spread (r 6%nat) 0.01) (Fin 0.002))
         (fst section) (snd section) false
         (Fin 0) (Fin 0) (Fin 0.5) (Fin 0.9).

Fixpoint createNodes (index : nat) (sections : list (string * string))
    (gid : nat -> nat) (rnd : nat -> num) : list Node :=
  match sections with
  | [] => []
  | section :: rest =>
      createNode index section gid rnd :: createNodes (S index) rest gid rnd
  end.

(* Lines 218-263: #reading-pane is looked up and, when absent, created
   hidden together with an empty #reading-content.  [existing] is the
   pane found in the page, with the content element it may hold. *)
Definition initDocument (els : list (string * string))
    (existing : option (PaneStyle * option string)) : Document :=
  match existing with
  | Some (style, content) => mkDocument els content style
  | None => mkDocument els (Some EmptyString) paneHidden
  end.

(* The scene state when initDetailsScene has built the nodes, before the
   first frame: [sections] lists the id and the title of every
   .detail-section of the page. *)
Definition initDetailsScene (sections : list (string * string))
    (gid : nat -> nat) (rnd : nat -> num) (doc : Document) : State :=
  mkState (createNodes 0 sections gid rnd) None (Fin 1) (Fin 0) doc.

(* --------------------------------------------------------------------- *)
(* 5. Pointer selection (lines 265-314)                                  *)
(* --------------------------------------------------------------------- *)

Definition set_nodes (ns : list Node) (s : State) : State :=
  mkState ns (activeNodeGroup s) (coreOpacity s) (starFieldRotationY s) (document s).

Definition set_activeNodeGroup (a : option nat) (s : State) : State :=
  mkState (nodes s) a (coreOpacity s) (starFieldRotationY s) (document s).

Definition set_document (d : Document) (s : State) : State :=
  mkState (nodes s) (activeNodeGroup s) (coreOpacity s) (starFieldRotationY s) d.

(* group.userData.isFrozen = b, for the group nodes[i] *)
Definition freeze (i : nat) (b : bool) (s : State) : State :=
  set_nodes (alter (set_isFrozen b) i (nodes s)) s.

(* lines 271-273 *)
Definition hidePane (d : Document) : Document :=
  mkDocument (elements d) (readingContent d) paneHidden.

(* lines 304-307 *)
Definition showPane (html : string) (d : Document) : Document :=
  mkDocument (elements d) (Some html) paneShown.

Definition closeReadingPane (s : State) : State * list Notification :=
  let s1 :=
    match activeNodeGroup s with
    | Some a => set_activeNodeGroup None (freeze a false s)
    | None => s
    end in
  (set_document (hidePane (document s1)) s1, [HideContent]).

(* `o.userData && o.userData.originalSectionId`: only a group of `nodes`
   carries the property, and the empty string is falsy.  The answer is
   the index of the group and the id it carries. *)
Definition sectionIdOf (ns : list Node) (o : Object3D) : option (nat * string) :=
  match o with
  | GroupObj i =>
      match ns !! i with
      | Some n =>
          if String.eqb (originalSectionId n) EmptyString then None
          else Some (i, originalSectionId n)
      | None => None
      end
  | _ => None
  end.

(* lines 286-291 *)
Definition resolveTarget (ns : list Node) (hitObj : Object3D)
  : result (option (nat * string)) :=
  let! hitGroup := deref (parent hitObj) in
  match sectionIdOf ns hitGroup with
  | Some t => Ok (Some t)
  | None =>
      match parent hitGroup with
      | Some p => Ok (sectionIdOf ns p)
      | None => Ok None
      end
  end.

(* [intersects] is the answer of raycaster.intersectObjects(interactables):
   the objects under the pointer, nearest first. *)
Definition onMouseClick (intersects : list Object3D) (s : State)
  : result (State * list Notification) :=
  match intersects with
  | hitObj :: _ =>
      let! targetGroup := resolveTarget (nodes s) hitObj in
      match targetGroup with
      | Some (t, sectionId) =>
          if decide (activeNodeGroup s = Some t) then Ok (s, [])
          else
            let s1 :=
              match activeNodeGroup s with
              | Some a => freeze a false s
              | None => s
              end in
            let s2 := freeze t true (set_activeNodeGroup (Some t) s1) in
            match getElementById (elements (document s2)) sectionId,
                  readingContent (document s2) with
            | Some html, Some _ =>
                Ok (set_document (showPane html (document s2)) s2,
                    [ShowContent sectionId])
            | _, _ => Ok (s2, [])
            end
      | None => Ok (s, [])
      end
  | [] => Ok (closeReadingPane s)
  end.

(* --------------------------------------------------------------------- *)
(* 6. The frame step (lines 325-437)                                     *)
(* --------------------------------------------------------------------- *)

Definition minDistance : num := Fin 9.0.

(* lines 341-344: squared distance between two positions *)
Definition distSq (p1 p2 : Vector3) : num :=
  let dx := jsub (x p1) (x p2) in
  let dy := jsub (y p1) (y p2) in
  let dz := jsub (z p1) (z p2) in
  jadd (jadd (jsquare dx) (jsquare dy)) (jsquare dz).

(* line 348 *)
Definition forceOf (dist : num) : num :=
  jmul (Fin 0.001) (jsub minDistance dist).

(* The vector ((dx / dist) * force, (dy / dist) * force, (dz / dist) * force)
   of lines 352-358, for the first node at [p1] and the second at [p2]. *)
Definition impulse (p1 p2 : Vector3) : Vector3 :=
  let dist := jsqrt (distSq p1 p2) in
  let force := forceOf dist in
  mkVector3 (jmul (jdiv (jsub (x p1) (x p2)) dist) force)
            (jmul (jdiv (jsub (y p1) (y p2)) dist) force)
            (jmul (jdiv (jsub (z p1) (z p2)) dist) force).

(* velocity += v and velocity -= v, component by component *)
Definition pushVelocity (v : Vector3) (n : Node) : Node :=
  set_velocity (vadd (velocity n) v) n.

Definition pullVelocity (v : Vector3) (n : Node) : Node :=
  set_velocity (vsub (velocity n) v) n.

(* The body of the inner loop, lines 336-359, for the indices i and j. *)
Definition repelPair (i j : nat) (ns : list Node) : result (list Node) :=
  let! n1 := deref (ns !! i) in
  let! n2 := deref (ns !! j) in
  if isFrozen n1 || isFrozen n2 then Ok ns
  else if jlt (distSq (position n1) (position n2)) (jmul minDistance minDistance)
  then
    let imp := impulse (position n1) (position n2) in
    Ok (alter (pullVelocity imp) j (alter (pushVelocity imp) i ns))
  else Ok ns.

(* lines 334-361; `nodes.length` is read once, the loop body never changes
   the length of the array *)
Definition repulsion (ns : list Node) : result (list Node) :=
  forLoop 0 (length ns)
    (fun i ns1 => forLoop (S i) (length ns) (fun j ns2 => repelPair i j ns2) ns1)
    ns.

(* `if (p > limit) { p = limit; v *= -1; }` on one axis *)
Definition clampAbove (limit : num) (pv : num * num) : num * num :=
  if jgt (fst pv) limit then (limit, jmul (snd pv) (Fin (-1))) else pv.

(* `if (p < limit) { p = limit; v *= -1; }` on one axis *)
Definition clampBelow (limit : num) (pv : num * num) : num * num :=
  if jlt (fst pv) limit then (limit, jmul (snd pv) (Fin (-1))) else pv.

Definition limitX : num := Fin 14.
Definition limitY : num := Fin 7.

(* Math.sin(time + group.id) * 0.002, line 393 *)
Definition sway (time : R) (gid : nat) : num :=
  jmul (Fin (sin (time + INR gid))) (Fin 0.002).

Definition smoothing : num := Fin 0.1.

(* The callback of nodes.forEach, lines 364-431, on one group; [core]
   is the opacity of the material shared by the crystal cores. *)
Definition animateNode (time : R) (group : Node) (core : num) : Node * num :=
  let rx := jadd (crystalRotationX group) (rotationSpeed group) in
  let ry := jadd (crystalRotationY group) (rotationSpeed group) in
  if negb (isFrozen group) then
    let p := vadd (position group) (velocity group) in
    let v := velocity group in
    let ax := clampBelow (jneg limitX) (clampAbove limitX (x p, x v)) in
    let ay := clampBelow (jneg limitY) (clampAbove limitY (y p, y v)) in
    let az := clampBelow (Fin (-10)) (clampAbove (Fin 5) (z p, z v)) in
    let py := jadd (fst ay) (sway time (id group)) in
    (mkNode (id group) (mkVector3 (fst ax) py (fst az)) (quaternion group)
            (mkVector3 (snd ax) (snd ay) (snd az)) (rotationSpeed group)
            (originalSectionId group) (titleText group) (isFrozen group)
            rx ry
            (lerp (crystalOpacity group) (Fin 0.5) smoothing)
            (lerp (spriteOpacity group) (Fin 0.9) smoothing),
     core)
  else
    (mkNode (id group) (position group)
            (slerp (quaternion group) identityQuaternion smoothing)
            (velocity group) (rotationSpeed group)
            (originalSectionId group) (titleText group) (isFrozen group)
            rx ry
            (lerp (crystalOpacity group) (Fin 0.1) smoothing)
            (lerp (spriteOpacity group) (Fin 0.05) smoothing),
     lerp core (Fin 0.2) smoothing).

(* nodes.forEach(group => ...) *)
Fixpoint forEachNode (time : R) (ns : list Node) (core : num)
  : list Node * num :=
  match ns with
  | [] => ([], core)
  | group :: rest =>
      let r := animateNode time group core in
      let rs := forEachNode time rest (snd r) in
      (fst r :: fst rs, snd rs)
  end.

(* One frame; [time] is clock.getElapsedTime(). *)
Definition animate (time : R) (s : State) : result State :=
  let! ns := repulsion (nodes s) in
  let r := forEachNode time ns (coreOpacity s) in
  Ok (mkState (fst r) (activeNodeGroup s) (snd r)
              (jmul (Fin time) (Fin 0.02)) (document s)).


(* --------------------------------------------------------------------- *)
(* 7. Vocabulary of the statements                                       *)
(* --------------------------------------------------------------------- *)

(* The test of lines 339 and 346: the pair exchanges an impulse. *)
Definition interacts (a b : Node) : bool :=
  negb (isFrozen a || isFrozen b)
  && jlt (distSq (position a) (position b)) (jmul minDistance minDistance).

(* What the node number m of [ns] adds to the velocity [v] of node k. *)
Definition contrib (ns : list Node) (k m : nat) (v : Vector3) : Vector3 :=
  match ns !! k, ns !! m with
  | Some a, Some b =>
      if interacts a b then vadd v (impulse (position a) (position b)) else v
  | _, _ => v
  end.

(* The indices other than k, in increasing order. *)
Definition partners (n k : nat) : list nat := seq 0 k ++ seq (S k) (n - S k).

(* Node k once the nodes listed in [ms] have acted on it, in that order. *)
Definition repelled (ns : list Node) (k : nat) (ms : list nat) (n : Node) : Node :=
  set_velocity (fold_left (fun v m => contrib ns k m v) ms (velocity n)) n.

(* The partners that have acted on node k when the outer loop of the
   repulsion reaches the index i, and when the inner loop of that
   iteration reaches j. *)
Definition progress_outer (n i k : nat) : list nat :=
  if (k <? i)%nat then partners n k else seq 0 i.

Definition progress_inner (n i j k : nat) : list nat :=
  if (k <? i)%nat then partners n k
  else if (k =? i)%nat then seq 0 i ++ seq (S i) (j - S i)
  else seq 0 i ++ (if (k <? j)%nat then [i] else []).

Definition repulsion_state (ns0 : list Node) (done : nat -> list nat)
    (ns : list Node) : Prop :=
  length ns = length ns0 /\
  forall k n, ns0 !! k = Some n -> ns !! k = Some (repelled ns0 k (done k) n).

(* What raycaster.intersectObjects(interactables) can return: a crystal
   or a label sprite (line 210) or, the search being recursive, the core
   inside a crystal. *)
Definition pickable (o : Object3D) : Prop :=
  match o with
  | CrystalObj _ | SpriteObj _ | CoreObj _ => True
  | _ => False
  end.

(* No node is frozen and nothing is selected. *)
Definition initial (s : State) : Prop :=
  activeNodeGroup s = None /\
  forall k n, nodes s !! k = Some n -> isFrozen n = false.

(* The states a session can reach: any number of clicks and frames. *)
Inductive reachable (s0 : State) : State -> Prop :=
  | reach_start : reachable s0 s0
  | reach_click (s1 s2 : State) (intersects : list Object3D)
      (out : list Notification) :
      reachable s0 s1 -> onMouseClick intersects s1 = Ok (s2, out) ->
      reachable s0 s2
  | reach_frame (s1 s2 : State) (time : R) :
      reachable s0 s1 -> animate time s1 = Ok s2 -> reachable s0 s2.

(* The frozen nodes are exactly the selected one. *)
Definition selection_invariant (s : State) : Prop :=
  (forall k n, nodes s !! k = Some n -> isFrozen n = true ->
               activeNodeGroup s = Some k) /\
  (forall k, activeNodeGroup s = Some k ->
             exists n, nodes s !! k = Some n /\ isFrozen n = true).

Definition at_most_one_frozen (s : State) : Prop :=
  forall i j a b, nodes s !! i = Some a -> nodes s !! j = Some b ->
                  isFrozen a = true -> isFrozen b = true -> i = j.

(* The show instruction of lines 300-308 for the section id [sid]: issued
   when the document holds an element of that id and #reading-content. *)
Definition showFor (d : Document) (sid : string) : list Notification :=
  match getElementById (elements d) sid, readingContent d with
  | Some _, Some _ => [ShowContent sid]
  | _, _ => []
  end.


(* A point of space with real coordinates, and the vector that holds it. *)
Record Point : Type := mkPoint { px : R; py : R; pz : R }.

Definition vec (a b c : R) : Vector3 := mkVector3 (Fin a) (Fin b) (Fin c).

Definition at_point (p : Point) : Vector3 := vec (px p) (py p) (pz p).

(* Squared and plain Euclidean distance *)
Definition distSqR (p q : Point) : R :=
  (px p - px q) * (px p - px q) + (py p - py q) * (py p - py q)
  + (pz p - pz q) * (pz p - pz q).

Definition dist (p q : Point) : R := sqrt (distSqR p q).

(* The vector of length [c] that points from q to p. *)
Definition towards (c : R) (p q : Point) : Vector3 :=
  vec (c * ((px p - px q) / dist p q)) (c * ((py p - py q) / dist p q))
      (c * ((pz p - pz q) / dist p q)).

(* A sum of squares is a real that is not negative, +Infinity or NaN. *)
Definition square_like (a : num) : Prop :=
  match a with
  | Fin r => 0 <= r
  | PInf | NaN => True
  | NInf => False
  end.

(* Every coordinate of every position and velocity is a real number. *)
Definition all_finite (ns : list Node) : Prop :=
  forall k n, ns !! k = Some n -> vfinite (position n) /\ vfinite (velocity n).

(* No two drifting nodes sit at the same position. *)
Definition no_overlap (ns : list Node) : Prop :=
  forall i j a b, i <> j -> ns !! i = Some a -> ns !! j = Some b ->
                  isFrozen a = false -> isFrozen b = false ->
                  position a <> position b.

(* The square of [d] is computed without underflow: [d] is 0 or its
   square is a normal double. *)
Definition exact_square (d : R) : Prop := d = 0 \/ leastNormal <= d * d.

(* None of the three squares of the squared distance underflows. *)
Definition squares_exact (p q : Point) : Prop :=
  exact_square (px p - px q) /\ exact_square (py p - py q) /\
  exact_square (pz p - pz q).

(* The vector (c * dx / d, c * dy / d, c * dz / d) from q to p. *)
Definition along (c d : R) (p q : Point) : Vector3 :=
  vec (c * ((px p - px q) / d)) (c * ((py p - py q) / d))
      (c * ((pz p - pz q) / d)).

(* The squared distance the code computes is not 0 for any two drifting
   nodes: their positions differ, and not by so little that all three
   squares underflow. *)
Definition no_zero_distance (ns : list Node) : Prop :=
  forall i j a b, i <> j -> ns !! i = Some a -> ns !! j = Some b ->
                  isFrozen a = false -> isFrozen b = false ->
                  distSq (position a) (position b) <> Fin 0.


(* --------------------------------------------------------------------- *)
(* 8. Sample scenes                                                      *)
(* --------------------------------------------------------------------- *)

(* A node with the opacities and the orientation it is created with. *)
Definition plainNode (gid : nat) (p v : Vector3) (frozen : bool) (sid : string)
  : Node :=
  mkNode gid p identityQuaternion v (Fin 0.005) sid "Title" frozen
         (Fin 0) (Fin 0) (Fin 0.5) (Fin 0.9).

(* The elements of a page with two sections, each with its innerHTML. *)
Definition samplePage : list (string * string) :=
  [("intro", "<h2>Intro</h2>"); ("usage", "<h2>Usage</h2>")].

(* A scene on a page without a #reading-pane of its own. *)
Definition sceneOf (ns : list Node) (a : option nat) (els : list (string * string))
  : State :=
  mkState ns a (Fin 1) (Fin 0) (initDocument els None).

(* Two nodes apart from each other, built from the two sections of the
   sample page. *)
Definition twoNodes : list Node :=
  [plainNode 4 (vec (-3) 1 0) (vec 0.001 0 0) false "intro";
   plainNode 8 (vec 8 (-2) 1) (vec 0 0.001 0) false "usage"].

(* The scene of the sample page before the first frame. *)
Definition sampleScene : State :=
  initDetailsScene [("intro", "Intro"); ("usage", "Usage")]
    (fun index => (4 + 4 * index)%nat) (fun k => Fin (INR k / 16))
    (initDocument samplePage None).

(* A page that brings its own #reading-pane, without a #reading-content
   element inside. *)
Definition paneWithoutContent : State :=
  mkState twoNodes None (Fin 1) (Fin 0)
          (initDocument samplePage (Some (paneHidden, None))).

(* The sample page with its first node selected and shown. *)
Definition firstSelected : State :=
  mkState [plainNode 4 (vec (-3) 1 0) (vec 0.001 0 0) true "intro";
           plainNode 8 (vec 8 (-2) 1) (vec 0 0.001 0) false "usage"]
          (Some 0%nat) (Fin 1) (Fin 0)
          (mkDocument samplePage (Some "<h2>Intro</h2>") paneShown).

(* The sample page with nothing selected. *)
Definition nothingSelected : State := sceneOf twoNodes None samplePage.

(* The three positions of the worked example of the repulsion. *)
Definition exampleA : Point := mkPoint 0 0 0.
Definition exampleB : Point := mkPoint 1 0 0.
Definition exampleC : Point := mkPoint 10 10 10.

Definition nodeA : Node := plainNode 4 (at_point exampleA) (vec 0 0 0) false "intro".
Definition nodeB : Node := plainNode 8 (at_point exampleB) (vec 0 0 0) false "usage".
Definition nodeC : Node := plainNode 12 (at_point exampleC) (vec 0 0 0) false "notes".

Definition threeNodes : list Node := [nodeA; nodeB; nodeC].

(* A single node that drifts past the right wall: position (14.5, 0, 0),
   velocity (0.3, 0, 0). *)
Definition wallScene : State :=
  sceneOf [plainNode 4 (vec 14.5 0 0) (vec 0.3 0 0) false "intro"] None samplePage.

(* A single node that drifts past the upper wall: position (0, 7.5, 0),
   velocity (0, 0.3, 0). *)
Definition ceilingNode : Node :=
  plainNode 4 (vec 0 7.5 0) (vec 0 0.3 0) false "intro".

Definition ceilingScene : State := sceneOf [ceilingNode] None samplePage.




(* Two drifting nodes at the same position. *)
Definition stackedNodes : list Node :=
  [plainNode 4 (vec 1 2 3) (vec 0 0 0) false "intro";
   plainNode 8 (vec 1 2 3) (vec 0 0 0) false "usage"].

(* Two drifting nodes at distinct positions, 1e-200 apart. *)
Definition nearNodes : list Node :=
  [plainNode 4 (vec 0 0 0) (vec 0 0 0) false "intro";
   plainNode 8 (vec 1e-200 0 0) (vec 0 0 0) false "usage"].

(* --------------------------------------------------------------------- *)
(* 9. The rest of the scene: pointer coordinates, the animation loop     *)
(* --------------------------------------------------------------------- *)

(* lines 277-278: the pointer in normalised device coordinates,
   ((clientX / innerWidth) * 2 - 1, -(clientY / innerHeight) * 2 + 1) *)
Definition pointerNDC (clientX clientY innerWidth innerHeight : num) : num * num :=
  (jsub (jmul (jdiv clientX innerWidth) (Fin 2)) (Fin 1),
   jadd (jmul (jneg (jdiv clientY innerHeight)) (Fin 2)) (Fin 1)).

(* The animation loop: animate is called once per frame (lines 326, 439),
   here for the elapsed times of [times], one after the other. *)
Fixpoint frames (times : list R) (s : State) : result State :=
  match times with
  | [] => Ok s
  | time :: rest => let! s1 := animate time s in frames rest s1
  end.



(* One step of the easing of an opacity towards [target]. *)
Definition ease (target : R) (o : R) : R := (1 - 0.1) * o + 0.1 * target.

(* The opacity [o] after [n] steps of easing towards [target]. *)
Definition eased (target : R) (n : nat) (o : R) : R :=
  target + 0.9 ^ n * (o - target).

(* The targets of lines 398, 421 and 424 *)
Definition crystalTarget (frozen : bool) : R := if frozen then 0.1 else 0.5.
Definition spriteTarget (frozen : bool) : R := if frozen then 0.05 else 0.9.




(* The object is one of the three meshes of the node number k. *)
Definition part_of (k : nat) (o : Object3D) : Prop :=
  o = CrystalObj k \/ o = SpriteObj k \/ o = CoreObj k.

(* A .detail-section of the page (line 93): its id, the empty string
   when it has none, and the innerText of its first h2 when it holds
   one. *)
Record DetailSection : Type := mkDetailSection {
  sectionId : string;
  heading : option string
}.

(* line 165: section.querySelector('h2').innerText; querySelector
   answers null for a section without h2 *)
Definition titleOf (section : DetailSection) : result string :=
  deref (heading section).

(* sections.forEach of lines 164-211, the title being read from the page *)
Fixpoint buildNodes (index : nat) (sections : list DetailSection)
    (gid : nat -> nat) (rnd : nat -> num) : result (list Node) :=
  match sections with
  | [] => Ok []
  | section :: rest =>
      let! title := titleOf section in
      let node := createNode index (sectionId section, title) gid rnd in
      let! ns := buildNodes (S index) rest gid rnd in
      Ok (node :: ns)
  end.

(* initDetailsScene from its first line to the creation of the pane.
   [container] tells whether document.getElementById(containerId) found
   an element: without it the function returns at once and builds
   nothing (lines 9-10).  The calls into three.js and the canvas are
   taken to succeed. *)
Definition runInitDetailsScene (container : bool) (sections : list DetailSection)
    (gid : nat -> nat) (rnd : nat -> num) (els : list (string * string))
    (existing : option (PaneStyle * option string)) : result (option State) :=
  if container then
    let! ns := buildNodes 0 sections gid rnd in
    Ok (Some (mkState ns None (Fin 1) (Fin 0) (initDocument els existing)))
  else Ok None.

(* The ranges of lines 189-199 for a node built with Math.random() in
   [0, 1). *)
Definition in_start_ranges (n : Node) : Prop :=
  (exists a b c, position n = mkVector3 (Fin a) (Fin b) (Fin c) /\
     -20 <= a < 20 /\ -12.5 <= b < 12.5 /\ -10 <= c < 10) /\
  (exists a b c, velocity n = mkVector3 (Fin a) (Fin b) (Fin c) /\
     -0.00075 <= a < 0.00075 /\ -0.00075 <= b < 0.00075 /\
     -0.00075 <= c < 0.00075) /\
  (exists w, rotationSpeed n = Fin w /\ -0.003 <= w < 0.007).

(* Math.random() answers a number of [0, 1) at every call. *)
Definition unit_random (rnd : nat -> num) : Prop :=
  forall i, exists r, rnd i = Fin r /\ 0 <= r < 1.

(* The sample scene with the first node selected, the second section
   being without id. *)
Definition secondWithoutId : State :=
  set_nodes [plainNode 4 (vec (-3) 1 0) (vec 0.001 0 0) true "intro";
             plainNode 8 (vec 8 (-2) 1) (vec 0 0.001 0) false EmptyString]
            firstSelected.

(* A supply of random numbers of (0, 1/2]. *)
Definition sampleRandom (k : nat) : num := Fin (/ (INR k + 2)).

(* The two sections of the sample page, and a page whose second section
   holds no h2. *)
Definition sampleSections : list DetailSection :=
  [mkDetailSection "intro" (Some "Intro"); mkDetailSection "usage" (Some "Usage")].

Definition sectionsWithoutHeading : list DetailSection :=
  [mkDetailSection "intro" (Some "Intro"); mkDetailSection "usage" None].

(* ===================================================================== *)
(* Properties                                                            *)
(* ===================================================================== *)

(* --------------------------------------------------------------------- *)
(* A. Arithmetic of [num]                                                *)
(* --------------------------------------------------------------------- *)

Ltac num_dec :=
  repeat match goal with
  | |- context [Rlt_dec ?a ?b] => destruct (Rlt_dec a b)
  | |- context [Req_dec_T ?a ?b] => destruct (Req_dec_T a b)
  | H : context [Rlt_dec ?a ?b] |- _ => destruct (Rlt_dec a b)
  | H : context [Req_dec_T ?a ?b] |- _ => destruct (Req_dec_T a b)
  end.

Ltac num_crush :=
  intros; simpl in *; unfold inf_times in *; num_dec; simpl in *;
  try reflexivity; try discriminate; try (exfalso; lra);
  try (f_equal; lra); try lra.

Lemma jlt_Fin (r s : R) : jlt (Fin r) (Fin s) = true <-> r < s.
Proof. simpl. destruct (Rlt_dec r s); split; intros; try easy. Qed.

Lemma jlt_Fin_true (r s : R) : r < s -> jlt (Fin r) (Fin s) = true.
Proof. apply jlt_Fin. Qed.

Lemma jlt_Fin_false (r s : R) : s <= r -> jlt (Fin r) (Fin s) = false.
Proof. intros H. simpl. destruct (Rlt_dec r s); [lra | reflexivity]. Qed.

Lemma jneg_involutive (a : num) : jneg (jneg a) = a.
Proof. destruct a; num_crush. Qed.

Lemma jadd_comm (a b : num) : jadd a b = jadd b a.
Proof. destruct a, b; num_crush. Qed.

Lemma jneg_jadd (a b : num) : jneg (jadd a b) = jadd (jneg a) (jneg b).
Proof. destruct a, b; num_crush. Qed.

Lemma jsub_swap (a b : num) : jsub b a = jneg (jsub a b).
Proof.
  unfold jsub. rewrite jneg_jadd, jneg_involutive. apply jadd_comm.
Qed.

Lemma jmul_jneg_jneg (a : num) : jmul (jneg a) (jneg a) = jmul a a.
Proof. destruct a; num_crush. Qed.

Lemma leastDouble_pos : 0 < leastDouble.
Proof. unfold leastDouble. apply Rinv_0_lt_compat, pow_lt. lra. Qed.

Lemma leastDouble_lt_1 : leastDouble < 1.
Proof.
  unfold leastDouble. rewrite <- Rinv_1. apply Rinv_lt_contravar.
  - rewrite Rmult_1_l. apply pow_lt. lra.
  - apply Rlt_pow_R1; [lra|lia].
Qed.

Lemma leastNormal_pos : 0 < leastNormal.
Proof. unfold leastNormal. apply Rinv_0_lt_compat, pow_lt. lra. Qed.

Lemma leastNormal_lt_1 : leastNormal < 1.
Proof.
  unfold leastNormal. rewrite <- Rinv_1. apply Rinv_lt_contravar.
  - rewrite Rmult_1_l. apply pow_lt. lra.
  - apply Rlt_pow_R1; [lra|lia].
Qed.

Lemma leastDouble_lt_leastNormal : leastDouble < leastNormal.
Proof.
  unfold leastDouble, leastNormal. apply Rinv_lt_contravar.
  - apply Rmult_lt_0_compat; apply pow_lt; lra.
  - apply Rlt_pow; [lra|lia].
Qed.

(* Closes [squares_exact p q] for points given by their coordinates. *)
Ltac exact_squares :=
  repeat split; unfold exact_square; simpl;
  first [left; lra | right; pose proof leastNormal_lt_1; lra].

Lemma jsquare_jneg (a : num) : jsquare (jneg a) = jsquare a.
Proof.
  destruct a as [r| | |]; try reflexivity.
  unfold jneg, jsquare. replace (- r * - r) with (r * r) by ring. reflexivity.
Qed.

(* A computed square is the exact one, or 0 when the exact one is at
   most half the least double. *)
Lemma jsquare_Fin (r : R) :
  exists s, jsquare (Fin r) = Fin s /\
            ((s = 0 /\ r * r <= leastDouble / 2) \/
             (s = r * r /\ leastDouble / 2 < s)).
Proof.
  unfold jsquare. destruct (Rle_dec (r * r) (leastDouble / 2)) as [Hle|Hgt].
  - exists 0. split; [reflexivity|]. left. split; [reflexivity|assumption].
  - exists (r * r). split; [reflexivity|]. right. split; [reflexivity|lra].
Qed.

Lemma jsquare_exact (r : R) : exact_square r -> jsquare (Fin r) = Fin (r * r).
Proof.
  pose proof leastDouble_pos. pose proof leastDouble_lt_leastNormal.
  intros [->|Hgt]; unfold jsquare;
    destruct (Rle_dec _ (leastDouble / 2)) as [Hle|Hn]; try reflexivity.
  - apply (f_equal Fin). ring.
  - lra.
Qed.

Lemma jmul_jneg_l (a b : num) : jmul (jneg a) b = jneg (jmul a b).
Proof. destruct a, b; num_crush. Qed.

Lemma jdiv_jneg_l (a b : num) : jdiv (jneg a) b = jneg (jdiv a b).
Proof.
  destruct a, b; num_crush; f_equal; unfold Rdiv; ring.
Qed.

(* --------------------------------------------------------------------- *)
(* B. Loops                                                              *)
(* --------------------------------------------------------------------- *)

Lemma forRange_invariant {A : Type} (P : nat -> A -> Prop)
    (body : nat -> A -> result A) :
  forall count k a,
    (forall m b, (k <= m < k + count)%nat -> P m b ->
                 exists b', body m b = Ok b' /\ P (S m) b') ->
    P k a ->
    exists a', forRange count k body a = Ok a' /\ P (k + count)%nat a'.
Proof.
  induction count as [|c IH]; intros k a Hbody Hk; simpl.
  - exists a. rewrite Nat.add_0_r. auto.
  - destruct (Hbody k a) as [b [Hb HP]]; [lia | assumption |].
    rewrite Hb. simpl.
    destruct (IH (S k) b) as [a' [Ha' HP']]; [| assumption |].
    + intros m b0 Hm. apply Hbody. lia.
    + exists a'. split; [assumption|].
      replace (k + S c)%nat with (S k + c)%nat by lia. assumption.
Qed.

Lemma forLoop_invariant {A : Type} (P : nat -> A -> Prop)
    (body : nat -> A -> result A) (lo hi : nat) (a : A) :
  (lo <= hi)%nat ->
  (forall m b, (lo <= m < hi)%nat -> P m b ->
               exists b', body m b = Ok b' /\ P (S m) b') ->
  P lo a ->
  exists a', forLoop lo hi body a = Ok a' /\ P hi a'.
Proof.
  intros Hle Hbody Hlo. unfold forLoop.
  destruct (forRange_invariant P body (hi - lo) lo a) as [a' [H1 H2]].
  - intros m b Hm. apply Hbody. lia.
  - assumption.
  - exists a'. split; [assumption|].
    replace hi with (lo + (hi - lo))%nat by lia. assumption.
Qed.

(* --------------------------------------------------------------------- *)
(* C. Repulsion                                                          *)
(* --------------------------------------------------------------------- *)

Lemma distSq_sym (p q : Vector3) : distSq p q = distSq q p.
Proof.
  unfold distSq.
  rewrite (jsub_swap (x p) (x q)), (jsub_swap (y p) (y q)), (jsub_swap (z p) (z q)).
  rewrite !jsquare_jneg. reflexivity.
Qed.

Lemma impulse_opposite (p q : Vector3) : impulse q p = vneg (impulse p q).
Proof.
  unfold impulse, vneg. simpl.
  rewrite (distSq_sym q p).
  rewrite (jsub_swap (x p) (x q)), (jsub_swap (y p) (y q)), (jsub_swap (z p) (z q)).
  rewrite !jdiv_jneg_l, !jmul_jneg_l. reflexivity.
Qed.

Lemma interacts_sym (a b : Node) : interacts a b = interacts b a.
Proof.
  unfold interacts. rewrite (distSq_sym (position a) (position b)).
  rewrite (orb_comm (isFrozen a)). reflexivity.
Qed.

Lemma contrib_first (ns : list Node) (i j : nat) (a b : Node) (v : Vector3) :
  ns !! i = Some a -> ns !! j = Some b ->
  contrib ns i j v =
    if interacts a b then vadd v (impulse (position a) (position b)) else v.
Proof. intros Ha Hb. unfold contrib. rewrite Ha, Hb. reflexivity. Qed.

Lemma contrib_second (ns : list Node) (i j : nat) (a b : Node) (v : Vector3) :
  ns !! i = Some a -> ns !! j = Some b ->
  contrib ns j i v =
    if interacts a b then vsub v (impulse (position a) (position b)) else v.
Proof.
  intros Ha Hb. unfold contrib. rewrite Ha, Hb.
  rewrite (interacts_sym b a), (impulse_opposite (position a) (position b)).
  reflexivity.
Qed.

Lemma repelled_snoc (ns : list Node) (k m : nat) (ms : list nat) (n : Node) :
  repelled ns k (ms ++ [m]) n =
  set_velocity (contrib ns k m (velocity (repelled ns k ms n))) n.
Proof. unfold repelled. rewrite fold_left_app. reflexivity. Qed.

Lemma repelled_snoc_id (ns : list Node) (k m : nat) (ms : list nat) (n : Node) :
  (forall v, contrib ns k m v = v) ->
  repelled ns k (ms ++ [m]) n = repelled ns k ms n.
Proof. intros H. rewrite repelled_snoc, H. reflexivity. Qed.

Lemma progress_inner_start (n i k : nat) :
  progress_inner n i (S i) k = progress_outer n i k.
Proof.
  unfold progress_inner, progress_outer.
  destruct (k <? i)%nat eqn:Hki; [reflexivity|].
  apply Nat.ltb_ge in Hki.
  destruct (k =? i)%nat eqn:Hk.
  - rewrite Nat.sub_diag. apply app_nil_r.
  - apply Nat.eqb_neq in Hk.
    destruct (k <? S i)%nat eqn:Hs; [apply Nat.ltb_lt in Hs; lia|].
    apply app_nil_r.
Qed.

Lemma progress_inner_end (n i k : nat) :
  (i < n)%nat -> (k < n)%nat ->
  progress_inner n i n k = progress_outer n (S i) k.
Proof.
  intros Hi Hkn. unfold progress_inner, progress_outer.
  destruct (k <? i)%nat eqn:Hki.
  - apply Nat.ltb_lt in Hki.
    destruct (k <? S i)%nat eqn:Hs; [reflexivity|].
    apply Nat.ltb_ge in Hs. lia.
  - apply Nat.ltb_ge in Hki.
    destruct (k =? i)%nat eqn:Hk.
    + apply Nat.eqb_eq in Hk. subst k.
      rewrite (proj2 (Nat.ltb_lt i (S i))) by lia. reflexivity.
    + apply Nat.eqb_neq in Hk.
      rewrite (proj2 (Nat.ltb_lt k n)) by lia.
      rewrite (proj2 (Nat.ltb_ge k (S i))) by lia.
      rewrite seq_S. reflexivity.
Qed.

Lemma progress_inner_step_first (n i j : nat) :
  (i < j)%nat ->
  progress_inner n i (S j) i = progress_inner n i j i ++ [j].
Proof.
  intros Hij. unfold progress_inner.
  rewrite Nat.ltb_irrefl, Nat.eqb_refl.
  replace (S j - S i)%nat with (S (j - S i)) by lia.
  rewrite seq_S, app_assoc.
  replace (S i + (j - S i))%nat with j by lia. reflexivity.
Qed.

Lemma progress_inner_step_second (n i j : nat) :
  (i < j)%nat ->
  progress_inner n i (S j) j = progress_inner n i j j ++ [i].
Proof.
  intros Hij. unfold progress_inner.
  rewrite (proj2 (Nat.ltb_ge j i)) by lia.
  rewrite (proj2 (Nat.eqb_neq j i)) by lia.
  rewrite (proj2 (Nat.ltb_lt j (S j))) by lia.
  rewrite Nat.ltb_irrefl, app_nil_r. reflexivity.
Qed.

Lemma progress_inner_step_other (n i j k : nat) :
  k <> i -> k <> j ->
  progress_inner n i (S j) k = progress_inner n i j k.
Proof.
  intros Hki Hkj. unfold progress_inner.
  destruct (k <? i)%nat; [reflexivity|].
  rewrite (proj2 (Nat.eqb_neq k i)) by assumption.
  destruct (k <? j)%nat eqn:H1.
  - apply Nat.ltb_lt in H1. rewrite (proj2 (Nat.ltb_lt k (S j))) by lia. reflexivity.
  - apply Nat.ltb_ge in H1. rewrite (proj2 (Nat.ltb_ge k (S j))) by lia. reflexivity.
Qed.

Lemma repelled_isFrozen ns k ms n : isFrozen (repelled ns k ms n) = isFrozen n.
Proof. reflexivity. Qed.

Lemma repelled_position ns k ms n : position (repelled ns k ms n) = position n.
Proof. reflexivity. Qed.

Lemma repelPair_eq (ns : list Node) (i j : nat) (n1 n2 : Node) :
  ns !! i = Some n1 -> ns !! j = Some n2 ->
  repelPair i j ns =
  Ok (if interacts n1 n2
      then alter (pullVelocity (impulse (position n1) (position n2))) j
             (alter (pushVelocity (impulse (position n1) (position n2))) i ns)
      else ns).
Proof.
  intros H1 H2. unfold repelPair, interacts. rewrite H1, H2. simpl.
  destruct (isFrozen n1 || isFrozen n2); simpl; [reflexivity|].
  destruct (jlt _ _); reflexivity.
Qed.

Lemma repelPair_step (ns0 ns : list Node) (i j : nat) :
  (i < j)%nat -> (j < length ns0)%nat ->
  repulsion_state ns0 (progress_inner (length ns0) i j) ns ->
  exists ns', repelPair i j ns = Ok ns' /\
              repulsion_state ns0 (progress_inner (length ns0) i (S j)) ns'.
Proof.
  intros Hij Hj [Hlen Hst].
  destruct (lookup_lt_is_Some_2 ns0 i) as [a Ha]; [lia|].
  destruct (lookup_lt_is_Some_2 ns0 j) as [b Hb]; [lia|].
  pose proof (Hst i a Ha) as Hi'. pose proof (Hst j b Hb) as Hj'.
  rewrite (repelPair_eq ns i j _ _ Hi' Hj').
  rewrite !repelled_position.
  change (interacts (repelled ns0 i (progress_inner (length ns0) i j i) a)
                    (repelled ns0 j (progress_inner (length ns0) i j j) b))
    with (interacts a b).
  assert (Hsame : forall k n, k <> i -> k <> j -> ns0 !! k = Some n ->
            ns !! k = Some (repelled ns0 k (progress_inner (length ns0) i (S j) k) n)).
  { intros k n Hki Hkj Hk. rewrite progress_inner_step_other by assumption. auto. }
  assert (Cf := fun v => contrib_first ns0 i j a b v Ha Hb).
  assert (Cs := fun v => contrib_second ns0 i j a b v Ha Hb).
  eexists. split; [reflexivity|].
  destruct (interacts a b) eqn:Hint.
  - split; [rewrite !length_alter; assumption|].
    intros k n Hk.
    destruct (decide (k = j)) as [->|Hkj].
    + rewrite list_lookup_alter_eq, list_lookup_alter_ne by lia.
      rewrite Hj'. simpl. rewrite Hb in Hk. inversion Hk; subst n.
      rewrite progress_inner_step_second by assumption.
      rewrite repelled_snoc, Cs. reflexivity.
    + rewrite list_lookup_alter_ne by auto.
      destruct (decide (k = i)) as [->|Hki].
      * rewrite list_lookup_alter_eq, Hi'. simpl.
        rewrite Ha in Hk. inversion Hk; subst n.
        rewrite progress_inner_step_first by assumption.
        rewrite repelled_snoc, Cf. reflexivity.
      * rewrite list_lookup_alter_ne by auto. auto.
  - split; [assumption|].
    intros k n Hk.
    destruct (decide (k = i)) as [->|Hki].
    + rewrite progress_inner_step_first by assumption.
      rewrite repelled_snoc_id; [auto|]. intros v. apply Cf.
    + destruct (decide (k = j)) as [->|Hkj]; [|auto].
      rewrite progress_inner_step_second by assumption.
      rewrite repelled_snoc_id; [auto|]. intros v. apply Cs.
Qed.

Lemma repulsion_state_ext (ns0 ns : list Node) (f g : nat -> list nat) :
  (forall k, (k < length ns0)%nat -> f k = g k) ->
  repulsion_state ns0 f ns -> repulsion_state ns0 g ns.
Proof.
  intros Hfg [Hlen Hst]. split; [assumption|].
  intros k n Hk. rewrite <- Hfg; [auto|].
  apply lookup_lt_is_Some_1. eauto.
Qed.

Lemma inner_loop_step (ns0 ns : list Node) (i : nat) :
  (i < length ns0)%nat ->
  repulsion_state ns0 (progress_outer (length ns0) i) ns ->
  exists ns',
    forLoop (S i) (length ns0) (fun j ns2 => repelPair i j ns2) ns = Ok ns' /\
    repulsion_state ns0 (progress_outer (length ns0) (S i)) ns'.
Proof.
  intros Hi Hst.
  destruct (forLoop_invariant
              (fun j ns1 => repulsion_state ns0 (progress_inner (length ns0) i j) ns1)
              (fun j ns2 => repelPair i j ns2) (S i) (length ns0) ns)
    as [ns' [Hrun Hend]].
  - lia.
  - intros j ns1 Hj Hinv. apply repelPair_step; [lia | lia | assumption].
  - eapply repulsion_state_ext; [|exact Hst].
    intros k _. symmetry. apply progress_inner_start.
  - exists ns'. split; [assumption|].
    eapply repulsion_state_ext; [|exact Hend].
    intros k Hk. apply progress_inner_end; assumption.
Qed.

Lemma repelled_nil (ns : list Node) (k : nat) (n : Node) : repelled ns k [] n = n.
Proof. destruct n; reflexivity. Qed.

(* The repulsion loops never throw, and they leave node k with every
   other node's contribution added to its velocity, lowest index first. *)
Lemma repulsion_spec (ns : list Node) :
  exists ns', repulsion ns = Ok ns' /\
              repulsion_state ns (partners (length ns)) ns'.
Proof.
  unfold repulsion.
  destruct (forLoop_invariant
              (fun i ns1 => repulsion_state ns (progress_outer (length ns) i) ns1)
              (fun i ns1 => forLoop (S i) (length ns)
                              (fun j ns2 => repelPair i j ns2) ns1)
              0 (length ns) ns)
    as [ns' [Hrun Hend]].
  - lia.
  - intros i ns1 Hi Hinv. apply inner_loop_step; [lia | assumption].
  - split; [reflexivity|]. intros k n Hk.
    unfold progress_outer. simpl. rewrite repelled_nil. assumption.
  - exists ns'. split; [assumption|].
    eapply repulsion_state_ext; [|exact Hend].
    intros k Hk. unfold progress_outer.
    rewrite (proj2 (Nat.ltb_lt k (length ns))) by assumption. reflexivity.
Qed.

(* --------------------------------------------------------------------- *)
(* D. The frame step as a whole                                          *)
(* --------------------------------------------------------------------- *)

Lemma forEachNode_length (time : R) (ns : list Node) (core : num) :
  length (fst (forEachNode time ns core)) = length ns.
Proof.
  revert core. induction ns as [|g rest IH]; intros core; simpl; [reflexivity|].
  rewrite IH. reflexivity.
Qed.

Lemma forEachNode_lookup (time : R) (ns : list Node) (core : num) (k : nat) (n : Node) :
  ns !! k = Some n ->
  exists c, fst (forEachNode time ns core) !! k = Some (fst (animateNode time n c)).
Proof.
  revert core k. induction ns as [|g rest IH]; intros core k Hk; [discriminate|].
  destruct k as [|k]; simpl in *.
  - inversion Hk; subst g. exists core. reflexivity.
  - apply IH. assumption.
Qed.

(* Node k after a frame: the repulsion of all the others, then the
   forEach callback. *)
Lemma animate_node_at (time : R) (s s' : State) (k : nat) (n : Node) :
  animate time s = Ok s' -> nodes s !! k = Some n ->
  exists c,
    nodes s' !! k =
    Some (fst (animateNode time
                 (repelled (nodes s) k (partners (length (nodes s)) k) n) c)).
Proof.
  intros Hrun Hk. unfold animate in Hrun.
  destruct (repulsion_spec (nodes s)) as [ns1 [Hrep [_ Hst]]].
  rewrite Hrep in Hrun. simpl in Hrun. inversion Hrun; subst s'. simpl.
  apply forEachNode_lookup. apply Hst. assumption.
Qed.

Lemma animate_returns (time : R) (s : State) : exists s', animate time s = Ok s'.
Proof.
  unfold animate. destruct (repulsion_spec (nodes s)) as [ns1 [Hrep _]].
  rewrite Hrep. simpl. eauto.
Qed.

Lemma animate_length (time : R) (s s' : State) :
  animate time s = Ok s' -> length (nodes s') = length (nodes s).
Proof.
  intros Hrun. unfold animate in Hrun.
  destruct (repulsion_spec (nodes s)) as [ns1 [Hrep [Hlen _]]].
  rewrite Hrep in Hrun. simpl in Hrun. inversion Hrun; subst s'. simpl.
  rewrite forEachNode_length. assumption.
Qed.

Lemma animate_activeNodeGroup (time : R) (s s' : State) :
  animate time s = Ok s' -> activeNodeGroup s' = activeNodeGroup s.
Proof.
  intros Hrun. unfold animate in Hrun.
  destruct (repulsion (nodes s)); simpl in Hrun; [|discriminate].
  inversion Hrun. reflexivity.
Qed.

Lemma contrib_frozen (ns : list Node) (k m : nat) (n : Node) (v : Vector3) :
  ns !! k = Some n -> isFrozen n = true -> contrib ns k m v = v.
Proof.
  intros Hk Hfr. unfold contrib. rewrite Hk.
  destruct (ns !! m); [|reflexivity].
  unfold interacts. rewrite Hfr. reflexivity.
Qed.

Lemma repelled_frozen (ns : list Node) (k : nat) (ms : list nat) (n : Node) :
  ns !! k = Some n -> isFrozen n = true -> repelled ns k ms n = n.
Proof.
  intros Hk Hfr. unfold repelled.
  assert (H : fold_left (fun v m => contrib ns k m v) ms (velocity n) = velocity n).
  { generalize (velocity n). induction ms as [|m ms IH]; intros v; simpl; [reflexivity|].
    rewrite (contrib_frozen ns k m n v Hk Hfr). apply IH. }
  rewrite H. destruct n; reflexivity.
Qed.

Lemma animateNode_kept (time : R) (n : Node) (c : num) :
  let n' := fst (animateNode time n c) in
  id n' = id n /\ rotationSpeed n' = rotationSpeed n /\
  originalSectionId n' = originalSectionId n /\ titleText n' = titleText n /\
  isFrozen n' = isFrozen n.
Proof. unfold animateNode. destruct (isFrozen n); simpl; auto. Qed.

Lemma animateNode_frozen (time : R) (n : Node) (c : num) :
  isFrozen n = true ->
  position (fst (animateNode time n c)) = position n /\
  velocity (fst (animateNode time n c)) = velocity n.
Proof. intros H. unfold animateNode. rewrite H. simpl. auto. Qed.

(* --------------------------------------------------------------------- *)
(* E. Frame conditions and totality                                      *)
(* --------------------------------------------------------------------- *)

Lemma animate_node_kept (time : R) (s s' : State) (k : nat) (n : Node) :
  animate time s = Ok s' -> nodes s !! k = Some n ->
  exists n',
    nodes s' !! k = Some n' /\
    isFrozen n' = isFrozen n /\
    originalSectionId n' = originalSectionId n /\
    id n' = id n /\ titleText n' = titleText n /\
    rotationSpeed n' = rotationSpeed n /\
    (isFrozen n = true ->
     position n' = position n /\ velocity n' = velocity n).
Proof.
  intros Hrun Hk.
  destruct (animate_node_at time s s' k n Hrun Hk) as [c Hn'].
  eexists. split; [exact Hn'|].
  destruct (animateNode_kept time
              (repelled (nodes s) k (partners (length (nodes s)) k) n) c)
    as (Hid & Hrs & Hsid & Htt & Hfr).
  simpl in *. repeat (split; [assumption|]).
  intros Hfrozen.
  rewrite (repelled_frozen (nodes s) k _ n Hk Hfrozen).
  apply animateNode_frozen. assumption.
Qed.

(** C8: a frame never changes a node's isFrozen flag or its
    originalSectionId (nor its id, title or rotation speed, nor the
    selection), and a node that is frozen when the frame runs keeps its
    position and its velocity: it takes no part in the repulsion, the
    drift, the bounds check or the sway. *)
Theorem animate_frame_condition (time : R) (s : State) :
  exists s',
    animate time s = Ok s' /\
    length (nodes s') = length (nodes s) /\
    activeNodeGroup s' = activeNodeGroup s /\
    forall k n, nodes s !! k = Some n ->
      exists n',
        nodes s' !! k = Some n' /\
        isFrozen n' = isFrozen n /\
        originalSectionId n' = originalSectionId n /\
        id n' = id n /\ titleText n' = titleText n /\
        rotationSpeed n' = rotationSpeed n /\
        (isFrozen n = true ->
         position n' = position n /\ velocity n' = velocity n).
Proof.
  destruct (animate_returns time s) as [s' Hrun].
  exists s'. split; [assumption|].
  split; [eapply animate_length; eassumption|].
  split; [eapply animate_activeNodeGroup; eassumption|].
  intros k n Hk. eapply animate_node_kept; eassumption.
Qed.

Lemma resolveTarget_pickable (ns : list Node) (o : Object3D) :
  pickable o -> exists t, resolveTarget ns o = Ok t.
Proof.
  intros Hp. unfold resolveTarget.
  destruct o; simpl in Hp; try contradiction; cbn [parent deref bind].
  - destruct (sectionIdOf ns (GroupObj i)); eauto.
  - destruct (sectionIdOf ns (GroupObj i)); eauto.
  - cbn [sectionIdOf]. eauto.
Qed.

Lemma onMouseClick_returns (intersects : list Object3D) (s : State) :
  Forall pickable intersects ->
  exists s' out, onMouseClick intersects s = Ok (s', out) /\ (length out <= 1)%nat.
Proof.
  intros Hpick. unfold onMouseClick.
  destruct intersects as [|hitObj rest].
  - unfold closeReadingPane. eexists _, _. split; [reflexivity|]. simpl. lia.
  - inversion Hpick as [|? ? Hhit _]; subst.
    destruct (resolveTarget_pickable (nodes s) hitObj Hhit) as [t Ht].
    rewrite Ht. simpl.
    destruct t as [[t sid]|].
    + destruct (decide (activeNodeGroup s = Some t)).
      * eexists _, _. split; [reflexivity|]. simpl. lia.
      * destruct (getElementById _ sid); [destruct (readingContent _)|];
          eexists _, _; (split; [reflexivity|]); simpl; lia.
    + eexists _, _. split; [reflexivity|]. simpl. lia.
Qed.

(** C9: the frame step and the click handler always return: animate
    yields a state for every time and every scene (an empty node set
    included), and onMouseClick yields a state and at most one
    notification for every answer of the ray caster (a miss and a
    repeated selection included); neither throws. *)
Theorem animate_onMouseClick_total :
  (forall time s, exists s', animate time s = Ok s') /\
  (forall intersects s,
     Forall pickable intersects ->
     exists s' out,
       onMouseClick intersects s = Ok (s', out) /\ (length out <= 1)%nat).
Proof.
  split.
  - apply animate_returns.
  - apply onMouseClick_returns.
Qed.

(* --------------------------------------------------------------------- *)
(* F. Pointer selection                                                  *)
(* --------------------------------------------------------------------- *)

Lemma freeze_lookup (i k : nat) (b : bool) (s : State) :
  nodes (freeze i b s) !! k =
  if decide (i = k) then set_isFrozen b <$> nodes s !! i else nodes s !! k.
Proof. unfold freeze. simpl. apply list_lookup_alter. Qed.

Lemma freeze_lookup_eq (i : nat) (b : bool) (s : State) (n : Node) :
  nodes s !! i = Some n -> nodes (freeze i b s) !! i = Some (set_isFrozen b n).
Proof.
  intros H. rewrite freeze_lookup. destruct (decide (i = i)); [|congruence].
  rewrite H. reflexivity.
Qed.

Lemma freeze_lookup_ne (i k : nat) (b : bool) (s : State) :
  i <> k -> nodes (freeze i b s) !! k = nodes s !! k.
Proof.
  intros H. rewrite freeze_lookup. destruct (decide (i = k)); [contradiction|].
  reflexivity.
Qed.

Lemma sectionIdOf_Some (ns : list Node) (o : Object3D) (t : nat) (sid : string) :
  sectionIdOf ns o = Some (t, sid) ->
  o = GroupObj t /\
  exists n, ns !! t = Some n /\ originalSectionId n = sid /\ sid <> EmptyString.
Proof.
  destruct o; simpl; try discriminate.
  destruct (ns !! i) as [n|] eqn:Hn; [|discriminate].
  destruct (String.eqb (originalSectionId n) EmptyString) eqn:He; [discriminate|].
  intros H. inversion H; subst. split; [reflexivity|].
  exists n. repeat split; try assumption.
  apply String.eqb_neq. assumption.
Qed.

(* A resolved target is a group of `nodes` that carries a section id. *)
Lemma resolveTarget_Some (ns : list Node) (hit : Object3D) (t : nat) (sid : string) :
  resolveTarget ns hit = Ok (Some (t, sid)) ->
  exists n, ns !! t = Some n /\ originalSectionId n = sid /\ sid <> EmptyString.
Proof.
  unfold resolveTarget. destruct (parent hit) as [g|]; simpl; [|discriminate].
  destruct (sectionIdOf ns g) as [[t' sid']|] eqn:Hg.
  - intros H. inversion H; subst. apply sectionIdOf_Some in Hg. tauto.
  - destruct (parent g) as [p|]; [|discriminate].
    intros H. inversion H as [Hp]. apply sectionIdOf_Some in Hp. tauto.
Qed.

(* The state after a new node t has been selected, lines 295-308. *)
Lemma onMouseClick_new (hit : Object3D) (rest : list Object3D) (s : State)
    (t : nat) (sid : string) :
  resolveTarget (nodes s) hit = Ok (Some (t, sid)) ->
  activeNodeGroup s <> Some t ->
  exists s',
    onMouseClick (hit :: rest) s = Ok (s', showFor (document s) sid) /\
    activeNodeGroup s' = Some t /\
    nodes s' =
      alter (set_isFrozen true) t
        (match activeNodeGroup s with
         | Some a => alter (set_isFrozen false) a (nodes s)
         | None => nodes s
         end) /\
    document s' =
      match getElementById (elements (document s)) sid, readingContent (document s) with
      | Some html, Some _ => showPane html (document s)
      | _, _ => document s
      end.
Proof.
  intros Ht Hne. unfold onMouseClick, showFor. rewrite Ht. simpl.
  destruct (decide (activeNodeGroup s = Some t)); [contradiction|].
  destruct (activeNodeGroup s) as [a|]; simpl;
    destruct (getElementById (elements (document s)) sid);
    try destruct (readingContent (document s));
    eexists; (split; [reflexivity|]); simpl; auto.
Qed.

Lemma onMouseClick_same (hit : Object3D) (rest : list Object3D) (s : State)
    (t : nat) (sid : string) :
  resolveTarget (nodes s) hit = Ok (Some (t, sid)) ->
  activeNodeGroup s = Some t ->
  onMouseClick (hit :: rest) s = Ok (s, []).
Proof.
  intros Ht Ha. unfold onMouseClick. rewrite Ht. simpl.
  destruct (decide (activeNodeGroup s = Some t)); [reflexivity|contradiction].
Qed.

Lemma onMouseClick_unresolved (hit : Object3D) (rest : list Object3D) (s : State) :
  resolveTarget (nodes s) hit = Ok None ->
  onMouseClick (hit :: rest) s = Ok (s, []).
Proof. intros Ht. unfold onMouseClick. rewrite Ht. reflexivity. Qed.

Lemma set_isFrozen_isFrozen (b : bool) (n : Node) : isFrozen (set_isFrozen b n) = b.
Proof. reflexivity. Qed.

Lemma selected_preserves (s : State) (t : nat) (ns : list Node)
    (d : Document) (c r : num) :
  selection_invariant s ->
  (exists n, nodes s !! t = Some n) ->
  ns = alter (set_isFrozen true) t
         (match activeNodeGroup s with
          | Some a => alter (set_isFrozen false) a (nodes s)
          | None => nodes s
          end) ->
  selection_invariant (mkState ns (Some t) c r d).
Proof.
  intros [Hfro Hact] [n Hn] ->. split; simpl.
  - intros k m Hk Hfr.
    destruct (decide (t = k)) as [->|Htk]; [reflexivity|].
    rewrite list_lookup_alter_ne in Hk by assumption.
    exfalso.
    destruct (activeNodeGroup s) as [a|] eqn:Ha.
    + destruct (decide (a = k)) as [->|Hak].
      * rewrite list_lookup_alter_eq in Hk.
        destruct (nodes s !! k); simpl in Hk; [|discriminate].
        inversion Hk; subst m. discriminate.
      * rewrite list_lookup_alter_ne in Hk by assumption.
        specialize (Hfro k m Hk Hfr). congruence.
    + specialize (Hfro k m Hk Hfr). discriminate.
  - intros k Hk. inversion Hk; subst k.
    rewrite list_lookup_alter_eq.
    destruct (activeNodeGroup s) as [a|].
    + destruct (decide (a = t)) as [->|Hat].
      * rewrite list_lookup_alter_eq, Hn. simpl. eauto.
      * rewrite list_lookup_alter_ne, Hn by assumption. simpl. eauto.
    + rewrite Hn. simpl. eauto.
Qed.

Lemma closeReadingPane_preserves (s : State) :
  selection_invariant s -> selection_invariant (fst (closeReadingPane s)).
Proof.
  intros [Hfro Hact]. unfold closeReadingPane.
  destruct (activeNodeGroup s) as [a|] eqn:Ha; simpl; split; simpl.
  - intros k m Hk Hfr. exfalso.
    destruct (decide (a = k)) as [->|Hak].
    + rewrite list_lookup_alter_eq in Hk.
      destruct (nodes s !! k); simpl in Hk; [|discriminate].
      inversion Hk; subst m. discriminate.
    + rewrite list_lookup_alter_ne in Hk by assumption.
      specialize (Hfro k m Hk Hfr). congruence.
  - discriminate.
  - rewrite Ha. intros k m Hk Hfr. specialize (Hfro k m Hk Hfr). congruence.
  - rewrite Ha. discriminate.
Qed.

Lemma onMouseClick_preserves (intersects : list Object3D) (s s' : State)
    (out : list Notification) :
  selection_invariant s -> onMouseClick intersects s = Ok (s', out) ->
  selection_invariant s'.
Proof.
  intros Hinv Hrun. destruct intersects as [|hit rest].
  - simpl in Hrun.
    pose proof (closeReadingPane_preserves s Hinv) as H.
    assert (Hs : closeReadingPane s = (s', out)) by congruence.
    rewrite Hs in H. exact H.
  - destruct (resolveTarget (nodes s) hit) as [[[t sid]|]|] eqn:Ht.
    + destruct (decide (activeNodeGroup s = Some t)) as [Ha|Ha].
      * rewrite (onMouseClick_same hit rest s t sid Ht Ha) in Hrun.
        inversion Hrun; subst. assumption.
      * destruct (onMouseClick_new hit rest s t sid Ht Ha)
          as (s1 & Hrun1 & Hact & Hns & _).
        rewrite Hrun1 in Hrun. inversion Hrun; subst s1 out.
        destruct (resolveTarget_Some _ _ _ _ Ht) as (n & Hn & _).
        destruct s' as [ns' a' c' r' d']. simpl in *. subst a'.
        eapply selected_preserves; eauto.
    + rewrite (onMouseClick_unresolved hit rest s Ht) in Hrun.
      inversion Hrun; subst. assumption.
    + unfold onMouseClick in Hrun. rewrite Ht in Hrun. discriminate.
Qed.

Lemma animate_preserves (time : R) (s s' : State) :
  selection_invariant s -> animate time s = Ok s' -> selection_invariant s'.
Proof.
  intros [Hfro Hact] Hrun.
  pose proof (animate_activeNodeGroup time s s' Hrun) as Ha.
  pose proof (animate_length time s s' Hrun) as Hlen.
  split.
  - intros k n' Hk' Hfr. rewrite Ha.
    destruct (lookup_lt_is_Some_2 (nodes s) k) as [n Hk].
    { rewrite <- Hlen. apply lookup_lt_is_Some_1. eauto. }
    destruct (animate_node_kept time s s' k n Hrun Hk) as (m & Hm & Hfm & _).
    rewrite Hk' in Hm. inversion Hm; subst m.
    apply (Hfro k n Hk). congruence.
  - intros k Hk. rewrite Ha in Hk.
    destruct (Hact k Hk) as (n & Hn & Hfr).
    destruct (animate_node_kept time s s' k n Hrun Hn) as (m & Hm & Hfm & _).
    exists m. split; [assumption|congruence].
Qed.

Lemma createNodes_unfrozen (sections : list (string * string)) (index : nat)
    (gid : nat -> nat) (rnd : nat -> num) (k : nat) (n : Node) :
  createNodes index sections gid rnd !! k = Some n -> isFrozen n = false.
Proof.
  revert index k. induction sections as [|sec rest IH]; intros index k Hk;
    [discriminate|].
  destruct k as [|k]; simpl in Hk.
  - inversion Hk. reflexivity.
  - eapply IH. eassumption.
Qed.

(* The scene that initDetailsScene builds is an initial state. *)
Lemma initDetailsScene_initial (sections : list (string * string))
    (gid : nat -> nat) (rnd : nat -> num) (doc : Document) :
  initial (initDetailsScene sections gid rnd doc).
Proof.
  split; [reflexivity|]. intros k n Hk.
  eapply createNodes_unfrozen. exact Hk.
Qed.

Lemma initial_invariant (s : State) : initial s -> selection_invariant s.
Proof.
  intros [Ha Hn]. split.
  - intros k n Hk Hfr. rewrite (Hn k n Hk) in Hfr. discriminate.
  - rewrite Ha. discriminate.
Qed.

Lemma invariant_at_most_one (s : State) :
  selection_invariant s -> at_most_one_frozen s.
Proof.
  intros [Hfro _] i j a b Hi Hj Ha Hb.
  pose proof (Hfro i a Hi Ha) as H1. pose proof (Hfro j b Hj Hb) as H2.
  congruence.
Qed.

(** C1: from a state where no node is frozen and nothing is selected,
    after any sequence of onMouseClick and animate calls the frozen
    nodes are exactly the node activeNodeGroup refers to; so at most one
    node is frozen. *)
Theorem selection_invariant_reachable (s0 s : State) :
  initial s0 -> reachable s0 s ->
  selection_invariant s /\ at_most_one_frozen s.
Proof.
  intros Hinit Hreach.
  assert (Hinv : selection_invariant s).
  { induction Hreach as [|s1 s2 ints out _ IH Hrun|s1 s2 time _ IH Hrun].
    - apply initial_invariant. assumption.
    - eapply onMouseClick_preserves; eassumption.
    - eapply animate_preserves; eassumption. }
  split; [assumption|]. apply invariant_at_most_one. assumption.
Qed.

(* A session on the sample page: a click on the first crystal, a frame,
   a click on the second label, a frame. *)
Lemma selection_invariant_reachable_witness :
  initial sampleScene /\
  exists s, reachable sampleScene s /\
            activeNodeGroup s = Some 1%nat /\
            selection_invariant s /\ at_most_one_frozen s.
Proof.
  assert (Hinit : initial sampleScene) by apply initDetailsScene_initial.
  split; [exact Hinit|].
  destruct (onMouseClick_returns [CrystalObj 0] sampleScene) as (s1 & o1 & H1 & _).
  { repeat constructor. }
  destruct (animate_returns 1 s1) as [s2 H2].
  destruct (onMouseClick_returns [SpriteObj 1; CrystalObj 0] s2) as (s3 & o3 & H3 & _).
  { repeat constructor. }
  destruct (animate_returns 2 s3) as [s4 H4].
  exists s4.
  assert (Hreach : reachable sampleScene s4).
  { eapply reach_frame; [|exact H4].
    eapply reach_click; [|exact H3].
    eapply reach_frame; [|exact H2].
    eapply reach_click; [|exact H1].
    apply reach_start. }
  split; [exact Hreach|].
  split.
  - rewrite (animate_activeNodeGroup 2 s3 s4 H4).
    assert (Hlen : length (nodes s2) = 2%nat).
    { rewrite (animate_length 1 s1 s2 H2).
      simpl in H1. inversion H1. reflexivity. }
    destruct (lookup_lt_is_Some_2 (nodes s2) 1) as [n Hn]; [lia|].
    assert (Hsid : originalSectionId n = "usage").
    { destruct (lookup_lt_is_Some_2 (nodes s1) 1) as [m Hm].
      { simpl in H1. inversion H1. simpl. lia. }
      destruct (animate_node_kept 1 s1 s2 1 m H2 Hm) as (n' & Hn' & _ & Hs & _).
      rewrite Hn in Hn'. inversion Hn'; subst n'. rewrite Hs.
      simpl in H1. inversion H1; subst s1. simpl in Hm.
      inversion Hm. reflexivity. }
    assert (Ha2 : activeNodeGroup s2 = Some 0%nat).
    { rewrite (animate_activeNodeGroup 1 s1 s2 H2).
      simpl in H1. inversion H1. reflexivity. }
    unfold onMouseClick, resolveTarget in H3. simpl in H3.
    rewrite Hn, Hsid in H3. simpl in H3.
    destruct (decide (activeNodeGroup s2 = Some 1%nat)) as [e|_]; [congruence|].
    rewrite Ha2 in H3.
    destruct (getElementById _ _); [destruct (readingContent _)|];
      inversion H3; reflexivity.
  - exact (selection_invariant_reachable sampleScene s4 Hinit Hreach).
Defined.

(** C4 (amended): when a hit resolves to a node t other than the
    selected one, the call returns; the node that was selected, if any,
    is unfrozen and every other node but t is left as it was; t is
    frozen and is the selection; and the show instruction carrying t's
    originalSectionId is issued once when the document holds an element
    of that id and the #reading-content element, and not at all
    otherwise (the guard of line 303). *)
Theorem select_new_node (hit : Object3D) (rest : list Object3D) (s : State)
    (t : nat) (sid : string) :
  resolveTarget (nodes s) hit = Ok (Some (t, sid)) ->
  activeNodeGroup s <> Some t ->
  exists s' n,
    onMouseClick (hit :: rest) s = Ok (s', showFor (document s) sid) /\
    nodes s !! t = Some n /\ originalSectionId n = sid /\
    activeNodeGroup s' = Some t /\
    nodes s' !! t = Some (set_isFrozen true n) /\
    (forall k m, k <> t -> nodes s !! k = Some m ->
       nodes s' !! k =
       Some (if decide (activeNodeGroup s = Some k) then set_isFrozen false m else m)) /\
    (selection_invariant s ->
       forall k m, k <> t -> nodes s' !! k = Some m -> isFrozen m = false) /\
    (forall html c,
       getElementById (elements (document s)) sid = Some html ->
       readingContent (document s) = Some c ->
       showFor (document s) sid = [ShowContent sid] /\
       document s' = showPane html (document s)) /\
    (getElementById (elements (document s)) sid = None \/
     readingContent (document s) = None ->
       showFor (document s) sid = [] /\ document s' = document s).
Proof.
  intros Ht Hne.
  destruct (onMouseClick_new hit rest s t sid Ht Hne) as (s' & Hrun & Hact & Hns & Hdoc).
  destruct (resolveTarget_Some _ _ _ _ Ht) as (n & Hn & Hsid & _).
  assert (Hother : forall k m, k <> t -> nodes s !! k = Some m ->
            nodes s' !! k =
            Some (if decide (activeNodeGroup s = Some k)
                  then set_isFrozen false m else m)).
  { intros k m Hk Hm. rewrite Hns, list_lookup_alter_ne by auto.
    destruct (activeNodeGroup s) as [a|].
    - destruct (decide (Some a = Some k)) as [e|e].
      + inversion e; subst a. rewrite list_lookup_alter_eq, Hm. reflexivity.
      + rewrite list_lookup_alter_ne, Hm by congruence. reflexivity.
    - destruct (decide (None = Some k)); [discriminate|assumption]. }
  exists s', n. repeat (split; [assumption|]).
  split.
  { rewrite Hns, list_lookup_alter_eq.
    destruct (activeNodeGroup s) as [a|].
    - destruct (decide (a = t)) as [->|Hat]; [contradiction Hne; reflexivity|].
      rewrite list_lookup_alter_ne, Hn by assumption. reflexivity.
    - rewrite Hn. reflexivity. }
  split; [exact Hother|].
  split.
  { intros [Hfro _] k m Hk Hm.
    destruct (lookup_lt_is_Some_2 (nodes s) k) as [m0 Hm0].
    { assert (Hlt : (k < length (nodes s'))%nat)
        by (apply lookup_lt_is_Some_1; eauto).
      rewrite Hns, length_alter in Hlt.
      destruct (activeNodeGroup s); rewrite ?length_alter in Hlt; assumption. }
    rewrite (Hother k m0 Hk Hm0) in Hm. inversion Hm; subst m.
    destruct (decide (activeNodeGroup s = Some k)) as [e|e]; [reflexivity|].
    destruct (isFrozen m0) eqn:Hf; [|reflexivity].
    contradiction e. eapply Hfro; eassumption. }
  split.
  - intros html c Hel Hrc. unfold showFor. rewrite Hdoc, Hel, Hrc. auto.
  - intros [Hel|Hrc]; unfold showFor; rewrite Hdoc.
    + rewrite Hel. auto.
    + rewrite Hrc. destruct (getElementById _ _); auto.
Qed.

(* The first node is selected and the ray meets the core of the second. *)
Lemma select_new_node_witness :
  resolveTarget (nodes firstSelected) (CoreObj 1) = Ok (Some (1%nat, "usage")) /\
  activeNodeGroup firstSelected <> Some 1%nat /\
  exists s',
    onMouseClick [CoreObj 1] firstSelected = Ok (s', [ShowContent "usage"]) /\
    activeNodeGroup s' = Some 1%nat /\
    isFrozen <$> nodes s' !! 0%nat = Some false /\
    isFrozen <$> nodes s' !! 1%nat = Some true /\
    document s' = mkDocument samplePage (Some "<h2>Usage</h2>") paneShown.
Proof.
  assert (Ht : resolveTarget (nodes firstSelected) (CoreObj 1)
               = Ok (Some (1%nat, "usage"))) by reflexivity.
  assert (Hne : activeNodeGroup firstSelected <> Some 1%nat) by discriminate.
  split; [exact Ht|]. split; [exact Hne|].
  destruct (select_new_node (CoreObj 1) [] firstSelected 1 "usage" Ht Hne)
    as (s' & n & Hrun & Hn & _ & Hact & Ht' & Hother & _ & Hshow & _).
  destruct (Hshow "<h2>Usage</h2>" "<h2>Intro</h2>" eq_refl eq_refl) as [Hout Hdoc].
  exists s'. rewrite <- Hout.
  split; [exact Hrun|]. split; [exact Hact|].
  split.
  - rewrite (Hother 0%nat _ ltac:(discriminate) eq_refl). reflexivity.
  - split; [rewrite Ht'; reflexivity|]. rewrite Hdoc. reflexivity.
Defined.

(* A hit resolves to a node that is not selected, the node is frozen and
   selected, and no show instruction is issued: the page has no
   #reading-content element. *)
Lemma select_new_node_silent :
  resolveTarget (nodes paneWithoutContent) (CrystalObj 0) = Ok (Some (0%nat, "intro")) /\
  activeNodeGroup paneWithoutContent = None /\
  exists s',
    onMouseClick [CrystalObj 0] paneWithoutContent = Ok (s', []) /\
    activeNodeGroup s' = Some 0%nat /\
    isFrozen <$> nodes s' !! 0%nat = Some true.
Proof.
  split; [reflexivity|]. split; [reflexivity|].
  eexists. split; [reflexivity|]. split; reflexivity.
Qed.

Lemma resolveTarget_set_isFrozen (ns : list Node) (hit : Object3D) (i : nat) (b : bool) :
  resolveTarget (alter (set_isFrozen b) i ns) hit = resolveTarget ns hit.
Proof.
  assert (H : forall o, sectionIdOf (alter (set_isFrozen b) i ns) o = sectionIdOf ns o).
  { intros o. destruct o; simpl; try reflexivity.
    rewrite list_lookup_alter.
    destruct (decide (i = i0)) as [->|_]; [|reflexivity].
    destruct (ns !! i0); reflexivity. }
  unfold resolveTarget. destruct (parent hit) as [g|]; simpl; [|reflexivity].
  rewrite H. destruct (sectionIdOf ns g); [reflexivity|].
  destruct (parent g); [rewrite H|]; reflexivity.
Qed.

(** C5 (amended): a hit on the node that is already selected changes
    nothing and issues nothing: the state after the call is the state
    before it.  Selecting a node that was not selected and then
    selecting it again issues what the first call issued and nothing
    more: one show instruction when the document holds the section and
    the #reading-content element, none otherwise, never two. *)
Theorem reselect_is_noop :
  (forall hit rest s t sid,
     resolveTarget (nodes s) hit = Ok (Some (t, sid)) ->
     activeNodeGroup s = Some t ->
     onMouseClick (hit :: rest) s = Ok (s, [])) /\
  (forall hit1 rest1 hit2 rest2 s t sid,
     resolveTarget (nodes s) hit1 = Ok (Some (t, sid)) ->
     resolveTarget (nodes s) hit2 = Ok (Some (t, sid)) ->
     activeNodeGroup s <> Some t ->
     exists s1 out1 out2,
       onMouseClick (hit1 :: rest1) s = Ok (s1, out1) /\
       onMouseClick (hit2 :: rest2) s1 = Ok (s1, out2) /\
       out2 = [] /\
       out1 ++ out2 = showFor (document s) sid /\
       (length (out1 ++ out2) <= 1)%nat /\
       (forall html c,
          getElementById (elements (document s)) sid = Some html ->
          readingContent (document s) = Some c ->
          out1 ++ out2 = [ShowContent sid])).
Proof.
  split.
  - intros hit rest s t sid. apply onMouseClick_same.
  - intros hit1 rest1 hit2 rest2 s t sid H1 H2 Hne.
    destruct (onMouseClick_new hit1 rest1 s t sid H1 Hne)
      as (s1 & Hrun & Hact & Hns & _).
    exists s1, (showFor (document s) sid), [].
    split; [exact Hrun|].
    split.
    { apply (onMouseClick_same hit2 rest2 s1 t sid); [|exact Hact].
      rewrite Hns, resolveTarget_set_isFrozen.
      destruct (activeNodeGroup s); [rewrite resolveTarget_set_isFrozen|]; exact H2. }
    split; [reflexivity|]. rewrite app_nil_r.
    split; [reflexivity|].
    split.
    + unfold showFor. destruct (getElementById _ _); [destruct (readingContent _)|];
        simpl; lia.
    + intros html c Hel Hrc. unfold showFor. rewrite Hel, Hrc. reflexivity.
Qed.

(* The second node is selected by its label, then hit again on its
   crystal and on its core. *)
Lemma reselect_is_noop_witness :
  exists s1,
    onMouseClick [SpriteObj 1] nothingSelected = Ok (s1, [ShowContent "usage"]) /\
    onMouseClick [CrystalObj 1] s1 = Ok (s1, []) /\
    onMouseClick [CoreObj 1; SpriteObj 0] s1 = Ok (s1, []).
Proof.
  destruct reselect_is_noop as [Hsame Htwice].
  destruct (Htwice (SpriteObj 1) [] (CrystalObj 1) [] nothingSelected 1%nat "usage"
              eq_refl eq_refl ltac:(discriminate))
    as (s1 & out1 & out2 & Hrun1 & Hrun2 & Hout2 & Hout & _).
  subst out2. rewrite app_nil_r in Hout. subst out1.
  exists s1. split; [exact Hrun1|]. split; [exact Hrun2|].
  apply (Hsame (CoreObj 1) [SpriteObj 0] s1 1%nat "usage").
  - simpl in Hrun1. inversion Hrun1. reflexivity.
  - simpl in Hrun1. inversion Hrun1. reflexivity.
Defined.

(* The same node selected twice in a row, and no instruction at all in
   total: the page has no #reading-content element. *)
Lemma select_twice_silent :
  resolveTarget (nodes paneWithoutContent) (SpriteObj 1) = Ok (Some (1%nat, "usage")) /\
  activeNodeGroup paneWithoutContent = None /\
  exists s1,
    onMouseClick [SpriteObj 1] paneWithoutContent = Ok (s1, []) /\
    onMouseClick [SpriteObj 1] s1 = Ok (s1, []) /\
    activeNodeGroup s1 = Some 1%nat.
Proof.
  split; [reflexivity|]. split; [reflexivity|].
  eexists. split; [reflexivity|]. split; reflexivity.
Qed.

(** C6 (amended): when the ray meets nothing the call returns, and it
    always carries out the hide instruction: the pane has the hidden
    style afterwards, whether a node was selected or not.  A node that
    was selected is unfrozen and nothing is selected afterwards; every
    other node is left as it was.  When no node was selected the nodes
    are unchanged, and if the pane was already hidden the whole state is
    unchanged: hiding again has no effect. *)
Theorem click_empty_space (s : State) :
  exists s',
    onMouseClick [] s = Ok (s', [HideContent]) /\
    activeNodeGroup s' = None /\
    document s' = hidePane (document s) /\
    readingPane (document s') = paneHidden /\
    (forall a n, activeNodeGroup s = Some a -> nodes s !! a = Some n ->
       nodes s' !! a = Some (set_isFrozen false n)) /\
    (forall k, activeNodeGroup s <> Some k -> nodes s' !! k = nodes s !! k) /\
    (activeNodeGroup s = None ->
       nodes s' = nodes s /\
       (readingPane (document s) = paneHidden -> s' = s)).
Proof.
  unfold onMouseClick, closeReadingPane.
  destruct (activeNodeGroup s) as [a|] eqn:Ha.
  - eexists. split; [reflexivity|]. simpl.
    repeat (split; [reflexivity|]).
    split.
    + intros a' n Ha' Hn. inversion Ha'; subst a'.
      rewrite list_lookup_alter_eq, Hn. reflexivity.
    + split; [|discriminate].
      intros k Hk. apply list_lookup_alter_ne. congruence.
  - eexists. split; [reflexivity|]. simpl. rewrite Ha.
    repeat (split; [reflexivity|]).
    split; [discriminate|]. split; [reflexivity|].
    intros _. split; [reflexivity|].
    intros Hp. destruct s as [ns act c r [els rc rp]]. simpl in *.
    subst. reflexivity.
Qed.

(* The first node is selected and the ray meets nothing. *)
Lemma click_empty_space_witness :
  exists s',
    onMouseClick [] firstSelected = Ok (s', [HideContent]) /\
    activeNodeGroup s' = None /\
    isFrozen <$> nodes s' !! 0%nat = Some false /\
    readingPane (document s') = paneHidden.
Proof.
  destruct (click_empty_space firstSelected)
    as (s' & Hrun & Hact & _ & Hpane & Hsel & _).
  exists s'. split; [exact Hrun|]. split; [exact Hact|].
  split; [|exact Hpane].
  rewrite (Hsel 0%nat _ eq_refl eq_refl). reflexivity.
Defined.

(* Nothing is selected, the ray meets nothing, and the hide instruction
   is carried out all the same; the state does not change. *)
Lemma click_empty_space_hides_again :
  activeNodeGroup nothingSelected = None /\
  Forall (fun n => isFrozen n = false) (nodes nothingSelected) /\
  onMouseClick [] nothingSelected = Ok (nothingSelected, [HideContent]).
Proof.
  split; [reflexivity|]. split; [repeat constructor|]. reflexivity.
Qed.

(* A frame with the first node frozen: it stays where it is. *)
Lemma animate_frame_condition_witness :
  exists s' n',
    animate 1 firstSelected = Ok s' /\ nodes s' !! 0%nat = Some n' /\
    isFrozen n' = true /\ originalSectionId n' = "intro" /\
    position n' = vec (-3) 1 0 /\ velocity n' = vec 0.001 0 0.
Proof.
  destruct (animate_frame_condition 1 firstSelected) as (s' & Hrun & _ & _ & Hall).
  destruct (Hall 0%nat _ eq_refl) as (n' & Hn' & Hfr & Hsid & _ & _ & _ & Hkeep).
  destruct (Hkeep eq_refl) as [Hp Hv].
  exists s', n'. repeat split; assumption.
Defined.

(* A frame and a miss on an empty node set, and a repeated selection. *)
Lemma animate_onMouseClick_total_witness :
  (exists s', animate 0 (sceneOf [] None samplePage) = Ok s') /\
  (exists s' out, onMouseClick [] (sceneOf [] None samplePage) = Ok (s', out)) /\
  (exists s' out, onMouseClick [CrystalObj 0] firstSelected = Ok (s', out)).
Proof.
  destruct animate_onMouseClick_total as [Hframe Hclick].
  split; [apply Hframe|]. split.
  - destruct (Hclick [] (sceneOf [] None samplePage)) as (s' & out & H & _);
      [constructor | eauto].
  - destruct (Hclick [CrystalObj 0] firstSelected) as (s' & out & H & _);
      [repeat constructor | eauto].
Defined.

(* --------------------------------------------------------------------- *)
(* G. The impulse of one pair                                            *)
(* --------------------------------------------------------------------- *)

Lemma square_like_jsquare (a : num) : square_like (jsquare a).
Proof.
  destruct a as [r| | |]; simpl; auto.
  destruct (Rle_dec (r * r) (leastDouble / 2)); simpl; nra.
Qed.

Lemma square_like_jadd (a b : num) :
  square_like a -> square_like b -> square_like (jadd a b).
Proof. destruct a, b; simpl; auto. lra. Qed.

Lemma square_like_distSq (p q : Vector3) : square_like (distSq p q).
Proof.
  unfold distSq. repeat apply square_like_jadd; apply square_like_jsquare.
Qed.

Lemma sqrt_lt_9 (r : R) : 0 <= r -> (sqrt r < 9 <-> r < 9 * 9).
Proof.
  intros Hr. split; intros H.
  - rewrite <- (sqrt_sqrt r Hr). pose proof (sqrt_pos r). nra.
  - rewrite <- (sqrt_square 9) by lra. apply sqrt_lt_1; lra.
Qed.

(* The test on squares of line 346 is the test on the distance itself. *)
Lemma threshold_on_distance (p q : Vector3) :
  jlt (distSq p q) (jmul minDistance minDistance)
  = jlt (jsqrt (distSq p q)) minDistance.
Proof.
  pose proof (square_like_distSq p q) as H.
  destruct (distSq p q) as [r| | |]; simpl in *; try reflexivity; try contradiction.
  destruct (Rlt_dec r 0); [lra|]. simpl.
  pose proof (sqrt_lt_9 r H) as Hs.
  destruct (Rlt_dec r (9.0 * 9.0)), (Rlt_dec (sqrt r) 9.0); try reflexivity;
    exfalso; lra.
Qed.

Lemma interacts_distance (a b : Node) :
  interacts a b =
  negb (isFrozen a) && negb (isFrozen b)
  && jlt (jsqrt (distSq (position a) (position b))) minDistance.
Proof.
  unfold interacts. rewrite threshold_on_distance, negb_orb. reflexivity.
Qed.

Lemma distSqR_nonneg (p q : Point) : 0 <= distSqR p q.
Proof.
  unfold distSqR.
  pose proof (Rle_0_sqr (px p - px q)). pose proof (Rle_0_sqr (py p - py q)).
  pose proof (Rle_0_sqr (pz p - pz q)). unfold Rsqr in *. lra.
Qed.

(* Where no square underflows the computed squared distance is the
   exact one. *)
Lemma distSq_at_points (p q : Point) :
  squares_exact p q -> distSq (at_point p) (at_point q) = Fin (distSqR p q).
Proof.
  intros (Hx & Hy & Hz). unfold distSq, at_point, vec, jsub. cbn [x y z jneg jadd].
  change (px p + - px q) with (px p - px q).
  change (py p + - py q) with (py p - py q).
  change (pz p + - pz q) with (pz p - pz q).
  rewrite !jsquare_exact by assumption. reflexivity.
Qed.

(* In general it is a real number between 0 and the exact one, and when
   it is not 0 it is at least the square of every coordinate difference:
   a square that underflows is below every square that does not. *)
Lemma distSq_computed (p q : Point) :
  exists s,
    distSq (at_point p) (at_point q) = Fin s /\
    0 <= s <= distSqR p q /\
    (0 < s ->
       (px p - px q) * (px p - px q) <= s /\
       (py p - py q) * (py p - py q) <= s /\
       (pz p - pz q) * (pz p - pz q) <= s).
Proof.
  unfold distSq, at_point, vec, jsub. cbn [x y z jneg jadd].
  change (px p + - px q) with (px p - px q).
  change (py p + - py q) with (py p - py q).
  change (pz p + - pz q) with (pz p - pz q).
  destruct (jsquare_Fin (px p - px q)) as (sx & -> & Hx).
  destruct (jsquare_Fin (py p - py q)) as (sy & -> & Hy).
  destruct (jsquare_Fin (pz p - pz q)) as (sz & -> & Hz).
  exists (sx + sy + sz). split; [reflexivity|].
  pose proof leastDouble_pos as HL.
  pose proof (Rle_0_sqr (px p - px q)) as Sx.
  pose proof (Rle_0_sqr (py p - py q)) as Sy.
  pose proof (Rle_0_sqr (pz p - pz q)) as Sz.
  unfold Rsqr in Sx, Sy, Sz. unfold distSqR.
  destruct Hx as [[-> Hx]|[-> Hx]], Hy as [[-> Hy]|[-> Hy]],
           Hz as [[-> Hz]|[-> Hz]]; repeat split; intros; lra.
Qed.

Lemma jsqrt_Fin (s : R) : 0 <= s -> jsqrt (Fin s) = Fin (sqrt s).
Proof. intros Hs. simpl. destruct (Rlt_dec s 0); [lra|reflexivity]. Qed.

Lemma jsqrt_distSq_at_points (p q : Point) :
  squares_exact p q ->
  jsqrt (distSq (at_point p) (at_point q)) = Fin (dist p q).
Proof.
  intros He. rewrite distSq_at_points by assumption.
  apply jsqrt_Fin, distSqR_nonneg.
Qed.

(* The distance the code divides by: a real number that is not negative,
   0 exactly when the computed squared distance is 0. *)
Lemma computed_distance (p q : Point) :
  exists d,
    jsqrt (distSq (at_point p) (at_point q)) = Fin d /\
    distSq (at_point p) (at_point q) = Fin (d * d) /\
    0 <= d /\ d * d <= distSqR p q /\
    (0 < d ->
       (px p - px q) * (px p - px q) <= d * d /\
       (py p - py q) * (py p - py q) <= d * d /\
       (pz p - pz q) * (pz p - pz q) <= d * d).
Proof.
  destruct (distSq_computed p q) as (s & Hs & [H0 Hle] & Hco).
  exists (sqrt s). rewrite Hs, (sqrt_sqrt s H0).
  split; [apply jsqrt_Fin; assumption|]. split; [reflexivity|].
  split; [apply sqrt_pos|]. split; [assumption|].
  intros Hd. apply Hco.
  destruct (Req_dec s 0) as [E|E]; [rewrite E, sqrt_0 in Hd; lra | lra].
Qed.

Lemma dist_nonneg (p q : Point) : 0 <= dist p q.
Proof. apply sqrt_pos. Qed.

Lemma dist_value (p q : Point) (d : R) :
  0 <= d -> d * d = distSqR p q -> dist p q = d.
Proof.
  intros Hd Hsq. unfold dist. apply sqrt_lem_1; [apply distSqR_nonneg | assumption | assumption].
Qed.

Lemma dist_positive (p q : Point) : p <> q -> 0 < dist p q.
Proof.
  intros Hne. apply sqrt_lt_R0. unfold distSqR.
  pose proof (Rle_0_sqr (px p - px q)) as Hx0.
  pose proof (Rle_0_sqr (py p - py q)) as Hy0.
  pose proof (Rle_0_sqr (pz p - pz q)) as Hz0.
  unfold Rsqr in *.
  destruct (Req_dec (px p) (px q)) as [Hx|Hx];
    [destruct (Req_dec (py p) (py q)) as [Hy|Hy];
       [destruct (Req_dec (pz p) (pz q)) as [Hz|Hz]|]|].
  - exfalso. apply Hne. destruct p, q; simpl in *. subst. reflexivity.
  - pose proof (Rsqr_pos_lt (pz p - pz q)) as H. unfold Rsqr in H.
    assert (pz p - pz q <> 0) by lra. specialize (H ltac:(assumption)). lra.
  - pose proof (Rsqr_pos_lt (py p - py q)) as H. unfold Rsqr in H.
    assert (py p - py q <> 0) by lra. specialize (H ltac:(assumption)). lra.
  - pose proof (Rsqr_pos_lt (px p - px q)) as H. unfold Rsqr in H.
    assert (px p - px q <> 0) by lra. specialize (H ltac:(assumption)). lra.
Qed.

(* With a divisor [d] other than 0 the impulse is the vector of the
   coordinate differences, each divided by [d] and multiplied by the
   force 0.001 * (9 - d). *)
Lemma impulse_computed (p q : Point) (d : R) :
  jsqrt (distSq (at_point p) (at_point q)) = Fin d -> 0 < d ->
  impulse (at_point p) (at_point q) = along (0.001 * (9 - d)) d p q.
Proof.
  intros Hs Hd. unfold impulse. rewrite Hs.
  unfold forceOf, along, vec, at_point, minDistance. simpl.
  destruct (Req_dec_T d 0); [lra|].
  simpl. f_equal; apply (f_equal Fin); unfold Rdiv; lra.
Qed.

(* Between two distinct points, where no square underflows, the impulse
   has the size of the force, 0.001 * (9 - distance), and the direction
   from the second point to the first. *)
Lemma impulse_at_points (p q : Point) :
  squares_exact p q -> 0 < dist p q ->
  impulse (at_point p) (at_point q) = towards (0.001 * (9 - dist p q)) p q.
Proof.
  intros He Hd.
  apply (impulse_computed p q (dist p q)); [|assumption].
  apply jsqrt_distSq_at_points. assumption.
Qed.

Lemma vfinite_at_point (v : Vector3) : vfinite v -> exists p, v = at_point p.
Proof.
  destruct v as [[a| | |] [b| | |] [c| | |]]; intros (Hx & Hy & Hz);
    simpl in *; try contradiction.
  exists (mkPoint a b c). reflexivity.
Qed.

Lemma at_point_injective (p q : Point) : at_point p = at_point q -> p = q.
Proof.
  destruct p, q. unfold at_point, vec. simpl. intros H. inversion H. reflexivity.
Qed.

Lemma interacts_near (a b : Node) (p q : Point) :
  position a = at_point p -> position b = at_point q ->
  isFrozen a = false -> isFrozen b = false ->
  distSqR p q < 81 -> interacts a b = true.
Proof.
  intros Ha Hb Hfa Hfb Hd. unfold interacts.
  destruct (distSq_computed p q) as (s & Hs & [H0 Hle] & _).
  rewrite Ha, Hb, Hfa, Hfb, Hs. simpl.
  destruct (Rlt_dec s (9.0 * 9.0)); [reflexivity|lra].
Qed.

Lemma interacts_far (a b : Node) (p q : Point) :
  position a = at_point p -> position b = at_point q ->
  squares_exact p q ->
  81 <= distSqR p q -> interacts a b = false.
Proof.
  intros Ha Hb He Hd. unfold interacts.
  rewrite Ha, Hb, distSq_at_points by assumption. simpl.
  destruct (Rlt_dec (distSqR p q) (9.0 * 9.0)); [lra|].
  apply andb_false_r.
Qed.

Lemma interacts_unfrozen (a b : Node) :
  interacts a b = true -> isFrozen a = false /\ isFrozen b = false.
Proof.
  unfold interacts. destruct (isFrozen a), (isFrozen b); simpl;
    try discriminate; auto.
Qed.

Lemma towards_size (c : R) (p q : Point) :
  0 < dist p q -> vdot (towards c p q) (towards c p q) = Fin (c * c).
Proof.
  intros Hd. unfold towards, vec, vdot. simpl. apply (f_equal Fin).
  assert (Hsq : dist p q * dist p q = distSqR p q)
    by (apply sqrt_sqrt, distSqR_nonneg).
  unfold Rdiv.
  replace (c * ((px p - px q) * / dist p q) * (c * ((px p - px q) * / dist p q))
           + c * ((py p - py q) * / dist p q) * (c * ((py p - py q) * / dist p q))
           + c * ((pz p - pz q) * / dist p q) * (c * ((pz p - pz q) * / dist p q)))
    with (c * c * (distSqR p q * (/ dist p q * / dist p q)))
    by (unfold distSqR; ring).
  rewrite <- Hsq. field. lra.
Qed.

Lemma example_dist_AB : dist exampleA exampleB = 1.
Proof. apply dist_value; [lra | unfold distSqR; simpl; lra]. Qed.

(* The worked example: nodes at (0,0,0), (1,0,0) and (10,10,10). *)
Lemma three_node_repulsion (a b c : Node) :
  position a = at_point exampleA -> position b = at_point exampleB ->
  position c = at_point exampleC ->
  isFrozen a = false -> isFrozen b = false -> isFrozen c = false ->
  repulsion [a; b; c] =
  Ok [pushVelocity (vec (-0.008) 0 0) a; pushVelocity (vec 0.008 0 0) b; c].
Proof.
  intros Ha Hb Hc Hfa Hfb Hfc.
  destruct (repulsion_spec [a; b; c]) as (ns' & Hrun & Hlen & Hst).
  rewrite Hrun. f_equal.
  pose proof (Hst 0%nat a eq_refl) as H0.
  pose proof (Hst 1%nat b eq_refl) as H1.
  pose proof (Hst 2%nat c eq_refl) as H2.
  destruct ns' as [|r0 [|r1 [|r2 [|]]]]; simpl in Hlen; try discriminate.
  simpl in H0, H1, H2. inversion H0; inversion H1; inversion H2; subst r0 r1 r2.
  assert (Hab : interacts a b = true).
  { apply (interacts_near a b exampleA exampleB); try assumption.
    unfold distSqR; simpl; lra. }
  assert (Hac : interacts a c = false).
  { apply (interacts_far a c exampleA exampleC); try assumption; [exact_squares|].
    unfold distSqR; simpl; lra. }
  assert (Hbc : interacts b c = false).
  { apply (interacts_far b c exampleB exampleC); try assumption; [exact_squares|].
    unfold distSqR; simpl; lra. }
  assert (Iab : impulse (position a) (position b) = vec (-0.008) 0 0).
  { rewrite Ha, Hb, impulse_at_points
      by first [exact_squares | rewrite example_dist_AB; lra].
    unfold towards. rewrite example_dist_AB. unfold vec. simpl.
    f_equal; apply (f_equal Fin); lra. }
  assert (Iba : impulse (position b) (position a) = vec 0.008 0 0).
  { rewrite impulse_opposite, Iab. unfold vec, vneg. simpl.
    f_equal; apply (f_equal Fin); lra. }
  unfold repelled, partners, contrib. simpl.
  rewrite Hab, Hac, Hbc, (interacts_sym b a), Hab, (interacts_sym c a), Hac,
    (interacts_sym c b), Hbc, Iab, Iba.
  replace (set_velocity (velocity c) c) with c by (destruct c; reflexivity).
  reflexivity.
Qed.

(** The repulsion of one frame, in full.  It never throws and changes
    velocities only.  Node k ends with the contribution of every other
    node added to its velocity, lowest index first.  The contribution of
    a partner is the vector [impulse], added when neither node is frozen
    and their Euclidean distance is below 9.0, and nothing otherwise (a
    pair at or beyond the threshold, or with a frozen node, exchanges
    nothing).  The two nodes of a pair receive opposite vectors.
    Between distinct points, where no square of the squared distance
    underflows, the vector has the size 0.001 * (9 - distance) and
    points along the line through the two positions, away from the
    partner.  For nodes at (0,0,0), (1,0,0) and
    (10,10,10) the first two are pushed apart by 0.008 along x and the
    third is left as it was. *)
Theorem pairwise_repulsion (time : R) (s : State) :
  exists ns',
    repulsion (nodes s) = Ok ns' /\
    animate time s =
      Ok (mkState (fst (forEachNode time ns' (coreOpacity s)))
                  (activeNodeGroup s)
                  (snd (forEachNode time ns' (coreOpacity s)))
                  (jmul (Fin time) (Fin 0.02)) (document s)) /\
    length ns' = length (nodes s) /\
    (forall k n, nodes s !! k = Some n ->
       ns' !! k =
       Some (set_velocity
               (fold_left (fun v m => contrib (nodes s) k m v)
                          (partners (length (nodes s)) k) (velocity n)) n)) /\
    (forall k m a b v, nodes s !! k = Some a -> nodes s !! m = Some b ->
       contrib (nodes s) k m v =
       if negb (isFrozen a) && negb (isFrozen b)
          && jlt (jsqrt (distSq (position a) (position b))) minDistance
       then vadd v (impulse (position a) (position b)) else v) /\
    (forall p q, impulse q p = vneg (impulse p q)) /\
    (forall p q : Point, squares_exact p q -> 0 < dist p q ->
       impulse (at_point p) (at_point q) = towards (0.001 * (9 - dist p q)) p q /\
       vdot (impulse (at_point p) (at_point q)) (impulse (at_point p) (at_point q))
       = Fin ((0.001 * (9 - dist p q)) * (0.001 * (9 - dist p q)))) /\
    (forall a b c,
       position a = vec 0 0 0 -> position b = vec 1 0 0 ->
       position c = vec 10 10 10 ->
       isFrozen a = false -> isFrozen b = false -> isFrozen c = false ->
       repulsion [a; b; c] =
       Ok [pushVelocity (vec (-0.008) 0 0) a; pushVelocity (vec 0.008 0 0) b; c]).
Proof.
  destruct (repulsion_spec (nodes s)) as (ns' & Hrun & Hlen & Hst).
  exists ns'. split; [exact Hrun|].
  split; [unfold animate; rewrite Hrun; reflexivity|].
  split; [exact Hlen|].
  split; [exact Hst|].
  split.
  { intros k m a b v Ha Hb. unfold contrib. rewrite Ha, Hb, interacts_distance.
    reflexivity. }
  split; [intros p q; apply impulse_opposite|].
  split.
  { intros p q He Hd. rewrite impulse_at_points by assumption.
    split; [reflexivity|]. apply towards_size. assumption. }
  intros a b c. apply three_node_repulsion.
Qed.

(* The worked example with the three nodes at rest. *)
Lemma pairwise_repulsion_witness :
  exists ns',
    repulsion threeNodes = Ok ns' /\
    velocity <$> ns' !! 0%nat = Some (vec (0 + -0.008) (0 + 0) (0 + 0)) /\
    velocity <$> ns' !! 1%nat = Some (vec (0 + 0.008) (0 + 0) (0 + 0)) /\
    ns' !! 2%nat = threeNodes !! 2%nat.
Proof.
  destruct (pairwise_repulsion 0 (sceneOf threeNodes None samplePage))
    as (ns' & Hrun & _ & _ & _ & _ & _ & _ & Hex).
  specialize (Hex nodeA nodeB nodeC eq_refl eq_refl eq_refl eq_refl eq_refl eq_refl).
  exists ns'. split; [exact Hrun|].
  change (repulsion [nodeA; nodeB; nodeC] = Ok ns') in Hrun.
  rewrite Hex in Hrun. inversion Hrun. subst ns'.
  repeat split; reflexivity.
Defined.

(* --------------------------------------------------------------------- *)
(* H. Bounds                                                             *)
(* --------------------------------------------------------------------- *)

Lemma jmul_minus_one (v : num) : jmul v (Fin (-1)) = jneg v.
Proof. destruct v; num_crush. Qed.

Lemma bounce_above (lo hi : R) (p v : num) :
  lo <= hi -> jgt p (Fin hi) = true ->
  clampBelow (Fin lo) (clampAbove (Fin hi) (p, v)) = (Fin hi, jneg v).
Proof.
  intros Hle Hp. unfold clampAbove. cbn [fst snd]. rewrite Hp.
  unfold clampBelow. simpl.
  destruct (Rlt_dec hi lo); [lra|]. rewrite jmul_minus_one. reflexivity.
Qed.

Lemma bounce_below (lo hi : R) (p v : num) :
  lo <= hi -> jlt p (Fin lo) = true ->
  clampBelow (Fin lo) (clampAbove (Fin hi) (p, v)) = (Fin lo, jneg v).
Proof.
  intros Hle Hp. unfold clampAbove, jgt. cbn [fst snd].
  assert (Hhi : jlt (Fin hi) p = false).
  { destruct p; simpl in *; try discriminate; try reflexivity.
    destruct (Rlt_dec r lo); [|discriminate].
    destruct (Rlt_dec hi r); [lra|reflexivity]. }
  rewrite Hhi. unfold clampBelow. simpl. rewrite Hp, jmul_minus_one. reflexivity.
Qed.

(* The callback on a drifting node: every axis is integrated and
   reflected on its own, and the sway is added to y afterwards. *)
Lemma animateNode_drifting (time : R) (n : Node) (c : num) :
  isFrozen n = false ->
  let q := vadd (position n) (velocity n) in
  let ax := clampBelow (jneg limitX) (clampAbove limitX (x q, x (velocity n))) in
  let ay := clampBelow (jneg limitY) (clampAbove limitY (y q, y (velocity n))) in
  let az := clampBelow (Fin (-10)) (clampAbove (Fin 5) (z q, z (velocity n))) in
  position (fst (animateNode time n c))
    = mkVector3 (fst ax) (jadd (fst ay) (sway time (id n))) (fst az) /\
  velocity (fst (animateNode time n c)) = mkVector3 (snd ax) (snd ay) (snd az).
Proof. intros Hfr. unfold animateNode. rewrite Hfr. simpl. auto. Qed.

(** C3 (amended): for a node that is not frozen, let v be its velocity
    after the repulsion of the frame and q = position + v.  On the x
    axis (bounds 14 and -14) and on the z axis (bounds 5 and -10), a
    coordinate of q beyond a bound leaves the position exactly at that
    bound after the frame, and the velocity coordinate is the opposite
    of that of v.  On the y axis (bounds 7 and -7) the velocity is
    reversed in the same way and the position is the bound plus the sway
    Math.sin(time + id) * 0.002, which is added after the bounds check. *)
Theorem boundary_reflection (time : R) (s : State) :
  exists s',
    animate time s = Ok s' /\
    forall k n, nodes s !! k = Some n -> isFrozen n = false ->
      exists n' v q,
        nodes s' !! k = Some n' /\
        v = fold_left (fun w m => contrib (nodes s) k m w)
                      (partners (length (nodes s)) k) (velocity n) /\
        q = vadd (position n) v /\
        (jgt (x q) limitX = true ->
           x (position n') = limitX /\ x (velocity n') = jneg (x v)) /\
        (jlt (x q) (jneg limitX) = true ->
           x (position n') = jneg limitX /\ x (velocity n') = jneg (x v)) /\
        (jgt (z q) (Fin 5) = true ->
           z (position n') = Fin 5 /\ z (velocity n') = jneg (z v)) /\
        (jlt (z q) (Fin (-10)) = true ->
           z (position n') = Fin (-10) /\ z (velocity n') = jneg (z v)) /\
        (jgt (y q) limitY = true ->
           y (position n') = jadd limitY (sway time (id n)) /\
           y (velocity n') = jneg (y v)) /\
        (jlt (y q) (jneg limitY) = true ->
           y (position n') = jadd (jneg limitY) (sway time (id n)) /\
           y (velocity n') = jneg (y v)).
Proof.
  destruct (animate_returns time s) as [s' Hrun].
  exists s'. split; [exact Hrun|].
  intros k n Hk Hfr.
  destruct (animate_node_at time s s' k n Hrun Hk) as [c Hn'].
  set (r := repelled (nodes s) k (partners (length (nodes s)) k) n) in *.
  destruct (animateNode_drifting time r c Hfr) as [Hpos Hvel].
  exists (fst (animateNode time r c)), (velocity r), (vadd (position n) (velocity r)).
  split; [exact Hn'|]. split; [reflexivity|]. split; [reflexivity|].
  rewrite Hpos, Hvel.
  change (position r) with (position n). change (id r) with (id n).
  unfold limitX, limitY. simpl.
  repeat match goal with |- _ /\ _ => split end; intros Hout.
  all: first [ rewrite bounce_above by (try lra; exact Hout)
             | rewrite bounce_below by (try lra; exact Hout) ]; split; reflexivity.
Qed.

(* The worked example: a lone node at (14.5, 0, 0) with velocity (0.3, 0, 0). *)
Lemma boundary_reflection_witness :
  exists s' n',
    animate 0 wallScene = Ok s' /\ nodes s' !! 0%nat = Some n' /\
    x (position n') = Fin 14 /\ x (velocity n') = Fin (-0.3).
Proof.
  destruct (boundary_reflection 0 wallScene) as (s' & Hrun & Hall).
  destruct (Hall 0%nat _ eq_refl eq_refl)
    as (n' & v & q & Hn' & Hv & Hq & Hx & _).
  exists s', n'. split; [exact Hrun|]. split; [exact Hn'|].
  simpl in Hv. subst v q. simpl in Hx.
  destruct Hx as [Hp Hvx].
  - destruct (Rlt_dec 14 (14.5 + 0.3)); [reflexivity|lra].
  - split; [exact Hp|]. rewrite Hvx. apply (f_equal Fin). lra.
Defined.

Lemma sway_ceiling_negative : sin (0.5 + INR 4) < 0.
Proof.
  pose proof PI2_3_2. pose proof PI_4.
  apply sin_lt_0; simpl; lra.
Qed.

(* A node drifts past the upper bound 7, and after the frame its y is
   not the bound: the sway, added after the bounds check, has moved it. *)
Lemma boundary_reflection_sway :
  exists s' n',
    animate 0.5 ceilingScene = Ok s' /\ nodes s' !! 0%nat = Some n' /\
    isFrozen ceilingNode = false /\
    jgt (y (vadd (position ceilingNode) (velocity ceilingNode))) limitY = true /\
    y (position n') <> limitY /\
    jlt (y (position n')) limitY = true.
Proof.
  destruct (animate_returns 0.5 ceilingScene) as [s' Hrun].
  destruct (animate_node_at 0.5 ceilingScene s' 0 ceilingNode Hrun eq_refl) as [c Hn'].
  assert (Hy : jgt (y (vadd (position ceilingNode) (velocity ceilingNode))) limitY = true).
  { unfold jgt, limitY. simpl. destruct (Rlt_dec 7 (7.5 + 0.3)); [reflexivity|lra]. }
  assert (Hpos : y (position (fst (animateNode 0.5 ceilingNode c)))
                 = Fin (7 + sin (0.5 + INR 4) * 0.002)).
  { destruct (animateNode_drifting 0.5 ceilingNode c eq_refl) as [Hp _].
    rewrite Hp. cbn [y]. unfold limitY in *.
    rewrite (bounce_above (-7) 7) by (try lra; exact Hy). reflexivity. }
  eexists _, _. split; [exact Hrun|]. split; [exact Hn'|].
  split; [reflexivity|]. split; [exact Hy|].
  change (repelled (nodes ceilingScene) 0
            (partners (length (nodes ceilingScene)) 0) ceilingNode)
    with ceilingNode.
  rewrite Hpos. pose proof sway_ceiling_negative as Hs.
  set (w := sin (0.5 + INR 4)) in *.
  split.
  - unfold limitY. intros H. injection H as H. lra.
  - unfold limitY. apply jlt_Fin_true. lra.
Qed.

(* --------------------------------------------------------------------- *)
(* I. Direction of the impulse, division by zero                         *)
(* --------------------------------------------------------------------- *)

(* A pair that exchanges an impulse, where the squared distance the
   code computes is not 0: the divisor is a positive real below 9, and
   no coordinate difference exceeds it. *)
Lemma interacting_pair (a b : Node) (p q : Point) :
  position a = at_point p -> position b = at_point q ->
  interacts a b = true -> distSq (position a) (position b) <> Fin 0 ->
  exists d,
    0 < d < 9 /\
    jsqrt (distSq (position a) (position b)) = Fin d /\
    impulse (position a) (position b) = along (0.001 * (9 - d)) d p q /\
    (px p - px q) * (px p - px q) <= d * d /\
    (py p - py q) * (py p - py q) <= d * d /\
    (pz p - pz q) * (pz p - pz q) <= d * d.
Proof.
  intros Ha Hb Hint Hnz. rewrite interacts_distance in Hint.
  apply andb_true_iff in Hint as [_ Hlt].
  rewrite Ha, Hb in *.
  destruct (computed_distance p q) as (d & Hs & Hsq & Hd0 & _ & Hco).
  assert (Hd : 0 < d).
  { destruct (Req_dec d 0) as [E|E]; [|lra].
    exfalso. apply Hnz. rewrite Hsq, E. apply (f_equal Fin). ring. }
  rewrite Hs in Hlt. apply jlt_Fin in Hlt. unfold minDistance in Hlt.
  exists d. split; [lra|]. split; [exact Hs|].
  split; [apply impulse_computed; assumption|]. apply Hco. exact Hd.
Qed.








Lemma distSq_same (p : Point) : distSq (at_point p) (at_point p) = Fin 0.
Proof.
  destruct (distSq_computed p p) as (s & Hs & [H0 Hle] & _).
  rewrite Hs. apply (f_equal Fin). unfold distSqR in Hle. lra.
Qed.

Lemma jdiv_zero (r : R) :
  jdiv (Fin r) (Fin 0) =
  if Rlt_dec 0 r then PInf else if Rlt_dec r 0 then NInf else NaN.
Proof. simpl. destruct (Req_dec_T 0 0); [reflexivity|lra]. Qed.

(* With two nodes the loops of the repulsion visit one pair. *)
Lemma repulsion_pair (a b : Node) : repulsion [a; b] = repelPair 0 1 [a; b].
Proof.
  unfold repulsion, forLoop. cbn [length Nat.sub forRange].
  destruct (repelPair 0 1 [a; b]); reflexivity.
Qed.

(** C2, at the input where the code departs from it: two drifting nodes
    at the same position are at distance 0, below the threshold, and the
    pair is processed; the quotient of line 352 is 0 / 0, so what is
    added to the two velocities is NaN on every axis, not a pair of
    opposite vectors of size 0.001 * 9. *)
Lemma stacked_nodes_nan :
  exists a b a' b',
    stackedNodes = [a; b] /\
    isFrozen a = false /\ isFrozen b = false /\
    position a = position b /\
    jlt (jsqrt (distSq (position a) (position b))) minDistance = true /\
    repulsion stackedNodes = Ok [a'; b'] /\
    velocity a' = mkVector3 NaN NaN NaN /\
    velocity b' = mkVector3 NaN NaN NaN.
Proof.
  exists (plainNode 4 (vec 1 2 3) (vec 0 0 0) false "intro"),
         (plainNode 8 (vec 1 2 3) (vec 0 0 0) false "usage").
  eexists _, _. split; [reflexivity|].
  split; [reflexivity|]. split; [reflexivity|]. split; [reflexivity|].
  assert (Hs : distSq (vec 1 2 3) (vec 1 2 3) = Fin 0)
    by apply (distSq_same (mkPoint 1 2 3)).
  assert (Hint : interacts (plainNode 4 (vec 1 2 3) (vec 0 0 0) false "intro")
                           (plainNode 8 (vec 1 2 3) (vec 0 0 0) false "usage")
                 = true).
  { apply (interacts_near _ _ (mkPoint 1 2 3) (mkPoint 1 2 3)); try reflexivity.
    unfold distSqR; simpl; lra. }
  split.
  { cbn [position plainNode]. rewrite Hs, jsqrt_Fin, sqrt_0 by lra.
    apply jlt_Fin_true. lra. }
  unfold stackedNodes. rewrite repulsion_pair.
  rewrite (repelPair_eq
             [plainNode 4 (vec 1 2 3) (vec 0 0 0) false "intro";
              plainNode 8 (vec 1 2 3) (vec 0 0 0) false "usage"] 0 1
             (plainNode 4 (vec 1 2 3) (vec 0 0 0) false "intro")
             (plainNode 8 (vec 1 2 3) (vec 0 0 0) false "usage")
             eq_refl eq_refl), Hint.
  cbn [position plainNode]. unfold impulse.
  rewrite Hs, jsqrt_Fin, sqrt_0 by lra.
  unfold vec, jsub. cbn [x y z jneg jadd].
  rewrite !jdiv_zero.
  repeat match goal with
         | |- context [Rlt_dec ?a ?b] =>
             destruct (Rlt_dec a b); try (exfalso; lra)
         end.
  split; [reflexivity|]. split; reflexivity.
Qed.

Lemma partners_other (n k m : nat) : In m (partners n k) -> m <> k.
Proof.
  unfold partners. intros H. apply in_app_or in H as [H|H];
    apply in_seq in H; lia.
Qed.

Lemma vfinite_vadd (v w : Vector3) : vfinite v -> vfinite w -> vfinite (vadd v w).
Proof.
  intros Hv Hw.
  destruct (vfinite_at_point v Hv) as [p ->].
  destruct (vfinite_at_point w Hw) as [q ->].
  repeat split.
Qed.

Lemma vfinite_towards (c : R) (p q : Point) : vfinite (towards c p q).
Proof. repeat split. Qed.

Lemma vfinite_along (c d : R) (p q : Point) : vfinite (along c d p q).
Proof. repeat split. Qed.

Lemma contrib_finite (ns : list Node) (k m : nat) (v : Vector3) :
  all_finite ns -> no_zero_distance ns -> k <> m -> vfinite v ->
  vfinite (contrib ns k m v).
Proof.
  intros Hfin Hno Hkm Hv. unfold contrib.
  destruct (ns !! k) as [a|] eqn:Ha; [|assumption].
  destruct (ns !! m) as [b|] eqn:Hb; [|assumption].
  destruct (interacts a b) eqn:Hint; [|assumption].
  destruct (interacts_unfrozen a b Hint) as [Hfa Hfb].
  destruct (Hfin k a Ha) as [Hpa _]. destruct (Hfin m b Hb) as [Hpb _].
  destruct (vfinite_at_point _ Hpa) as [p Hp].
  destruct (vfinite_at_point _ Hpb) as [q Hq].
  destruct (interacting_pair a b p q Hp Hq Hint (Hno k m a b Hkm Ha Hb Hfa Hfb))
    as (d & _ & _ & Himp & _).
  rewrite Himp. apply vfinite_vadd; [assumption | apply vfinite_along].
Qed.

Lemma repelled_finite (ns : list Node) (k : nat) (ms : list nat) (n : Node) :
  all_finite ns -> no_zero_distance ns -> (forall m, In m ms -> m <> k) ->
  vfinite (velocity n) -> vfinite (velocity (repelled ns k ms n)).
Proof.
  intros Hfin Hno. unfold repelled. simpl.
  generalize (velocity n).
  induction ms as [|m ms IH]; intros v Hms Hv; simpl; [assumption|].
  apply IH.
  - intros m' Hm'. apply Hms. right. assumption.
  - apply contrib_finite; try assumption.
    intros ->. apply (Hms m); [left; reflexivity | reflexivity].
Qed.

Lemma animateNode_finite (time : R) (n : Node) (c : num) :
  vfinite (position n) -> vfinite (velocity n) ->
  vfinite (position (fst (animateNode time n c))) /\
  vfinite (velocity (fst (animateNode time n c))).
Proof.
  intros Hp Hv.
  destruct (vfinite_at_point _ Hp) as [p Hp'].
  destruct (vfinite_at_point _ Hv) as [v Hv'].
  unfold animateNode. rewrite Hp', Hv'.
  destruct (isFrozen n); simpl; [repeat split|].
  unfold clampAbove, clampBelow, jgt, limitX, limitY, sway. simpl.
  repeat match goal with
         | |- context [Rlt_dec ?a ?b] => destruct (Rlt_dec a b); simpl
         end; repeat split.
Qed.

(* Where the squared distance the code computes is not 0 for any two
   drifting nodes, and every coordinate is a real number: every pair
   that exchanges an impulse divides by a distance that is a positive
   real, the frame returns, and every position and velocity coordinate
   after the frame is again a real number. *)
Theorem nonzero_distance_stays_finite (time : R) (s : State) :
  all_finite (nodes s) -> no_zero_distance (nodes s) ->
  (forall i j a b, i <> j ->
     nodes s !! i = Some a -> nodes s !! j = Some b ->
     interacts a b = true ->
     exists d, jsqrt (distSq (position a) (position b)) = Fin d /\ 0 < d) /\
  exists s', animate time s = Ok s' /\ all_finite (nodes s').
Proof.
  intros Hfin Hno. split.
  - intros i j a b Hij Ha Hb Hint.
    destruct (interacts_unfrozen a b Hint) as [Hfa Hfb].
    destruct (Hfin i a Ha) as [Hpa _]. destruct (Hfin j b Hb) as [Hpb _].
    destruct (vfinite_at_point _ Hpa) as [p Hp].
    destruct (vfinite_at_point _ Hpb) as [q Hq].
    destruct (interacting_pair a b p q Hp Hq Hint (Hno i j a b Hij Ha Hb Hfa Hfb))
      as (d & [Hd _] & Hs & _).
    exists d. split; assumption.
  - destruct (animate_returns time s) as [s' Hrun].
    exists s'. split; [exact Hrun|].
    intros k n' Hk'.
    destruct (lookup_lt_is_Some_2 (nodes s) k) as [n Hk].
    { rewrite <- (animate_length time s s' Hrun).
      apply lookup_lt_is_Some_1. eauto. }
    destruct (animate_node_at time s s' k n Hrun Hk) as [c Hn'].
    rewrite Hk' in Hn'. inversion Hn'; subst n'.
    destruct (Hfin k n Hk) as [Hp Hv].
    apply animateNode_finite.
    + exact Hp.
    + apply repelled_finite; try assumption. apply partners_other.
Qed.

Lemma threeNodes_all_finite : all_finite threeNodes.
Proof.
  intros [|[|[|k]]] n Hk; simpl in Hk; try discriminate;
    inversion Hk; repeat split.
Qed.

Lemma distSq_nonzero (p q : Point) :
  squares_exact p q -> 0 < distSqR p q ->
  distSq (at_point p) (at_point q) <> Fin 0.
Proof.
  intros He Hd. rewrite distSq_at_points by assumption.
  intros H. injection H as H. lra.
Qed.

Lemma threeNodes_no_zero_distance : no_zero_distance threeNodes.
Proof.
  intros [|[|[|i]]] [|[|[|j]]] a b Hij Ha Hb _ _; simpl in Ha, Hb;
    try discriminate; try (contradiction Hij; reflexivity);
    inversion Ha; inversion Hb; subst;
    match goal with
    | |- distSq (position ?a) (position ?b) <> _ =>
        change (position a) with (at_point (mkPoint 0 0 0)) ||
        change (position a) with (at_point (mkPoint 1 0 0)) ||
        change (position a) with (at_point (mkPoint 10 10 10));
        change (position b) with (at_point (mkPoint 0 0 0)) ||
        change (position b) with (at_point (mkPoint 1 0 0)) ||
        change (position b) with (at_point (mkPoint 10 10 10))
    end;
    (apply distSq_nonzero; [exact_squares | unfold distSqR; simpl; lra]).
Qed.

(* The three nodes of the worked example: the first two interact, at
   distance 1. *)
Lemma nonzero_distance_stays_finite_witness :
  all_finite threeNodes /\ no_zero_distance threeNodes /\
  (exists d, jsqrt (distSq (position nodeA) (position nodeB)) = Fin d /\ 0 < d) /\
  exists s', animate 1 (sceneOf threeNodes None samplePage) = Ok s' /\
             all_finite (nodes s').
Proof.
  split; [exact threeNodes_all_finite|].
  split; [exact threeNodes_no_zero_distance|].
  destruct (nonzero_distance_stays_finite 1 (sceneOf threeNodes None samplePage)
              threeNodes_all_finite threeNodes_no_zero_distance) as [Hdiv Hrun].
  split; [|exact Hrun].
  apply (Hdiv 0%nat 1%nat nodeA nodeB); try reflexivity; try discriminate.
  apply (interacts_near nodeA nodeB exampleA exampleB); try reflexivity.
  unfold distSqR; simpl; lra.
Defined.

Lemma jsquare_underflow (r : R) :
  r * r <= leastDouble / 2 -> jsquare (Fin r) = Fin 0.
Proof.
  intros H. unfold jsquare.
  destruct (Rle_dec (r * r) (leastDouble / 2)); [reflexivity|contradiction].
Qed.

(* The square of 1e-200 is 1e-400, below half the least double. *)
Lemma near_square_underflows :
  (0 + - (1e-200)) * (0 + - (1e-200)) <= leastDouble / 2.
Proof.
  set (A := IZR (Z.pow_pos 10 200)).
  assert (HA : 2 * 2 ^ 1074 <= A * A).
  { unfold A. rewrite pow_IZR, <- !mult_IZR. apply IZR_le.
    vm_compute. discriminate. }
  assert (Hp : 0 < 2 ^ 1074) by (apply pow_lt; lra).
  assert (HA0 : 0 < A) by (unfold A; apply IZR_lt; vm_compute; reflexivity).
  replace ((0 + - (1 / A)) * (0 + - (1 / A))) with (/ (A * A))
    by (field; lra).
  unfold leastDouble.
  replace (/ 2 ^ 1074 / 2) with (/ (2 * 2 ^ 1074)) by (field; lra).
  apply Rinv_le_contravar; [lra | exact HA].
Qed.

Lemma nearNodes_distSq : distSq (vec 0 0 0) (vec 1e-200 0 0) = Fin 0.
Proof.
  unfold distSq, vec, jsub. cbn [x y z jneg jadd].
  rewrite (jsquare_underflow _ near_square_underflows).
  rewrite (jsquare_underflow (0 + - 0))
    by (pose proof leastDouble_pos; lra).
  simpl. apply (f_equal Fin). lra.
Qed.

(** C10, at the input where the code departs from it: two drifting nodes
    at (0, 0, 0) and (1e-200, 0, 0) have real coordinates and distinct
    positions, so the precondition holds.  The square of their
    difference on x underflows to 0, the squared distance of line 344
    is 0, the pair is processed with the divisor dist = 0 and the
    quotients of lines 352-358 are -Infinity on x and 0 / 0 = NaN on y
    and z: after the repulsion the velocities are (-Infinity, NaN, NaN)
    and (+Infinity, NaN, NaN), and after the frame no velocity
    coordinate of either node is a real number. *)
Lemma near_nodes_divide_by_zero :
  exists a b a' b' s',
    nearNodes = [a; b] /\
    all_finite nearNodes /\ no_overlap nearNodes /\
    interacts a b = true /\
    jsqrt (distSq (position a) (position b)) = Fin 0 /\
    repulsion nearNodes = Ok [a'; b'] /\
    velocity a' = mkVector3 NInf NaN NaN /\
    velocity b' = mkVector3 PInf NaN NaN /\
    animate 0 (sceneOf nearNodes None samplePage) = Ok s' /\
    velocity <$> nodes s' = [mkVector3 PInf NaN NaN; mkVector3 NInf NaN NaN].
Proof.
  set (a := plainNode 4 (vec 0 0 0) (vec 0 0 0) false "intro").
  set (b := plainNode 8 (vec 1e-200 0 0) (vec 0 0 0) false "usage").
  assert (Hint : interacts a b = true).
  { unfold interacts. cbn [a b position isFrozen plainNode].
    rewrite nearNodes_distSq. simpl.
    destruct (Rlt_dec 0 (9.0 * 9.0)); [reflexivity|lra]. }
  assert (Himp : impulse (position a) (position b) = mkVector3 NInf NaN NaN).
  { cbn [a b position plainNode]. unfold impulse.
    rewrite nearNodes_distSq, jsqrt_Fin, sqrt_0 by lra.
    unfold vec, jsub. cbn [x y z jneg jadd]. rewrite !jdiv_zero.
    assert (Hx : 0 + - (1e-200) < 0) by lra.
    repeat match goal with
           | |- context [Rlt_dec ?u ?v] =>
               destruct (Rlt_dec u v); try (exfalso; lra)
           end.
    unfold forceOf, minDistance. simpl. unfold inf_times.
    repeat match goal with
           | |- context [Rlt_dec ?u ?v] =>
               destruct (Rlt_dec u v); try (exfalso; lra)
           end.
    reflexivity. }
  assert (Hrep : repulsion nearNodes
                 = Ok [pushVelocity (mkVector3 NInf NaN NaN) a;
                       pullVelocity (mkVector3 NInf NaN NaN) b]).
  { unfold nearNodes. fold a b. rewrite repulsion_pair.
    rewrite (repelPair_eq [a; b] 0 1 a b eq_refl eq_refl), Hint, Himp.
    reflexivity. }
  exists a, b. eexists _, _, _.
  split; [reflexivity|].
  split.
  { intros [|[|k]] n Hk; simpl in Hk; try discriminate;
      inversion Hk; repeat split. }
  split.
  { intros [|[|i]] [|[|j]] u v Hij Hu Hv _ _; simpl in Hu, Hv;
      try discriminate; try (contradiction Hij; reflexivity);
      inversion Hu; inversion Hv; subst; simpl;
      intros H; injection H as H; lra. }
  split; [exact Hint|].
  split.
  { cbn [a b position plainNode].
    rewrite nearNodes_distSq, jsqrt_Fin, sqrt_0 by lra. reflexivity. }
  split; [exact Hrep|].
  split; [reflexivity|]. split; [reflexivity|].
  unfold animate, sceneOf. cbn [nodes]. rewrite Hrep.
  cbn [bind]. split; [reflexivity|].
  cbn [nodes]. unfold forEachNode, animateNode, pushVelocity, pullVelocity.
  cbn [a b plainNode isFrozen negb set_velocity velocity position vadd vsub
       x y z vec jadd jsub jneg fst snd fmap list_fmap id].
  unfold clampAbove, clampBelow, jgt, limitX, limitY, sway. simpl.
  repeat match goal with
         | |- context [Rlt_dec ?u ?v] =>
             destruct (Rlt_dec u v); try (exfalso; lra); simpl
         end.
  unfold inf_times.
  repeat match goal with
         | |- context [Rlt_dec ?u ?v] =>
             destruct (Rlt_dec u v); try (exfalso; lra); simpl
         end.
  reflexivity.
Qed.

(* ===================================================================== *)
(* Further properties of the scene                                       *)
(* ===================================================================== *)

(* --------------------------------------------------------------------- *)
(* J. The box                                                            *)
(* --------------------------------------------------------------------- *)

Lemma clamp_range (lo hi : R) (p v : num) (r : R) :
  lo <= hi ->
  fst (clampBelow (Fin lo) (clampAbove (Fin hi) (p, v))) = Fin r ->
  lo <= r <= hi.
Proof.
  intros Hle. unfold clampAbove, clampBelow, jgt.
  destruct p as [a| | |]; simpl.
  - destruct (Rlt_dec hi a); simpl.
    + destruct (Rlt_dec hi lo); simpl; intros H; injection H as <-; lra.
    + destruct (Rlt_dec a lo); simpl; intros H; injection H as <-; lra.
  - destruct (Rlt_dec hi lo); simpl; intros H; injection H as <-; lra.
  - intros H; injection H as <-; lra.
  - discriminate.
Qed.

Lemma clamp_inside (lo hi : num) (p v : num) :
  jgt p hi = false -> jlt p lo = false ->
  clampBelow lo (clampAbove hi (p, v)) = (p, v).
Proof.
  intros H1 H2. unfold clampAbove. cbn [fst snd]. rewrite H1.
  unfold clampBelow. cbn [fst snd]. rewrite H2. reflexivity.
Qed.

Lemma clamp_speed (lo hi : R) (p v : num) :
  lo <= hi ->
  snd (clampBelow (Fin lo) (clampAbove (Fin hi) (p, v))) = v \/
  snd (clampBelow (Fin lo) (clampAbove (Fin hi) (p, v))) = jneg v.
Proof.
  intros Hle.
  destruct (jgt p (Fin hi)) eqn:H1.
  - rewrite (bounce_above lo hi p v Hle H1). right. reflexivity.
  - destruct (jlt p (Fin lo)) eqn:H2.
    + rewrite (bounce_below lo hi p v Hle H2). right. reflexivity.
    + rewrite (clamp_inside (Fin lo) (Fin hi) p v H1 H2). left. reflexivity.
Qed.

Lemma sway_bound (time : R) (gid : nat) :
  exists w, sway time gid = Fin w /\ -0.002 <= w <= 0.002.
Proof.
  unfold sway. simpl. eexists. split; [reflexivity|].
  pose proof (SIN_bound (time + INR gid)) as [H1 H2]. lra.
Qed.

(** X1: after a frame every drifting node is inside the box, whatever
    its position was before: each coordinate of its position that is a
    real number lies within -14..14 on x, within -10..5 on z and, the
    sway being added after the bounds check, within -7.002..7.002 on
    y. *)
Theorem drifting_nodes_stay_in_box (time : R) (s : State) :
  exists s',
    animate time s = Ok s' /\
    forall k n n', nodes s !! k = Some n -> isFrozen n = false ->
      nodes s' !! k = Some n' ->
      (forall r, x (position n') = Fin r -> -14 <= r <= 14) /\
      (forall r, y (position n') = Fin r -> -7.002 <= r <= 7.002) /\
      (forall r, z (position n') = Fin r -> -10 <= r <= 5).
Proof.
  destruct (animate_returns time s) as [s' Hrun].
  exists s'. split; [exact Hrun|].
  intros k n n' Hk Hfr Hk'.
  destruct (animate_node_at time s s' k n Hrun Hk) as [c Hn'].
  rewrite Hk' in Hn'. injection Hn' as ->.
  set (m := repelled (nodes s) k (partners (length (nodes s)) k) n).
  destruct (animateNode_drifting time m c Hfr) as [Hpos _].
  rewrite Hpos. cbn [x y z]. unfold limitX, limitY. cbn [jneg].
  split; [|split]; intros r Hr.
  - apply clamp_range in Hr; lra.
  - destruct (sway_bound time (id m)) as (w & Hw & Hwb). rewrite Hw in Hr.
    destruct (fst (clampBelow (Fin (- (7))) (clampAbove (Fin 7) _))) as [a| | |] eqn:Ha;
      simpl in Hr; try discriminate.
    injection Hr as <-. apply clamp_range in Ha; lra.
  - apply clamp_range in Hr; lra.
Qed.

(* A node created far outside the box, as the construction allows:
   x = 19 > 14, z = 9 > 5. *)
Lemma drifting_nodes_stay_in_box_witness :
  exists s' n',
    animate 0 (sceneOf [plainNode 4 (vec 19 0 9) (vec 0 0 0) false "intro"]
                       None samplePage) = Ok s' /\
    nodes s' !! 0%nat = Some n' /\
    x (position n') = Fin 14 /\ z (position n') = Fin 5.
Proof.
  destruct (drifting_nodes_stay_in_box 0
              (sceneOf [plainNode 4 (vec 19 0 9) (vec 0 0 0) false "intro"]
                       None samplePage)) as (s' & Hrun & _).
  destruct (animate_node_at 0 _ s' 0 _ Hrun eq_refl) as [c Hn'].
  eexists _, _. split; [exact Hrun|]. split; [exact Hn'|].
  match goal with |- context [animateNode 0 ?m c] =>
    destruct (animateNode_drifting 0 m c eq_refl) as [Hpos _] end.
  rewrite Hpos. cbn [x z]. unfold limitX. cbn [jneg].
  rewrite (bounce_above (-(14)) 14), (bounce_above (-10) 5);
    try lra; try (unfold jgt; simpl; apply jlt_Fin_true; lra).
  split; reflexivity.
Defined.

(** X2: the bounds check reverses a velocity or leaves it alone, it
    never changes its size: after a frame each velocity coordinate of a
    drifting node is the coordinate it had after the repulsion, or the
    opposite of it.  While the integrated position stays within the
    bounds of an axis nothing is reflected: the position is position +
    velocity (plus the sway on y) and the velocity is unchanged. *)
Theorem reflection_keeps_speed (time : R) (s : State) :
  exists s',
    animate time s = Ok s' /\
    forall k n, nodes s !! k = Some n -> isFrozen n = false ->
      exists n' v q,
        nodes s' !! k = Some n' /\
        v = fold_left (fun w m => contrib (nodes s) k m w)
                      (partners (length (nodes s)) k) (velocity n) /\
        q = vadd (position n) v /\
        (x (velocity n') = x v \/ x (velocity n') = jneg (x v)) /\
        (y (velocity n') = y v \/ y (velocity n') = jneg (y v)) /\
        (z (velocity n') = z v \/ z (velocity n') = jneg (z v)) /\
        (jgt (x q) limitX = false -> jlt (x q) (jneg limitX) = false ->
           x (position n') = x q /\ x (velocity n') = x v) /\
        (jgt (y q) limitY = false -> jlt (y q) (jneg limitY) = false ->
           y (position n') = jadd (y q) (sway time (id n)) /\
           y (velocity n') = y v) /\
        (jgt (z q) (Fin 5) = false -> jlt (z q) (Fin (-10)) = false ->
           z (position n') = z q /\ z (velocity n') = z v).
Proof.
  destruct (animate_returns time s) as [s' Hrun].
  exists s'. split; [exact Hrun|].
  intros k n Hk Hfr.
  destruct (animate_node_at time s s' k n Hrun Hk) as [c Hn'].
  set (m := repelled (nodes s) k (partners (length (nodes s)) k) n) in *.
  destruct (animateNode_drifting time m c Hfr) as [Hpos Hvel].
  exists (fst (animateNode time m c)), (velocity m), (vadd (position n) (velocity m)).
  split; [exact Hn'|]. split; [reflexivity|]. split; [reflexivity|].
  rewrite Hpos, Hvel.
  change (position m) with (position n). change (id m) with (id n).
  cbn [x y z]. unfold limitX, limitY. cbn [jneg].
  split; [apply clamp_speed; lra|].
  split; [apply clamp_speed; lra|].
  split; [apply clamp_speed; lra|].
  split; [|split]; intros H1 H2; rewrite (clamp_inside _ _ _ _ H1 H2); split; reflexivity.
Qed.

(* --------------------------------------------------------------------- *)
(* K. The repulsion as a whole                                           *)
(* --------------------------------------------------------------------- *)

Lemma set_velocity_same (n : Node) : set_velocity (velocity n) n = n.
Proof. destruct n; reflexivity. Qed.

Lemma repelled_idle (ns : list Node) (k : nat) (ms : list nat) (n : Node) :
  (forall m v, In m ms -> contrib ns k m v = v) ->
  repelled ns k ms n = n.
Proof.
  intros H. unfold repelled.
  assert (Hf : fold_left (fun v m => contrib ns k m v) ms (velocity n) = velocity n).
  { generalize (velocity n). induction ms as [|m ms IH]; intros v; simpl; [reflexivity|].
    rewrite H by (left; reflexivity). apply IH.
    intros m' v' Hm'. apply H. right. assumption. }
  rewrite Hf. apply set_velocity_same.
Qed.

(** X3: when no two nodes interact (every pair has a frozen node or is
    at least 9.0 apart) the repulsion returns the array unchanged; so
    it does for an empty array and for a single node. *)
Theorem repulsion_idle (ns : list Node) :
  (forall i j a b, i <> j -> ns !! i = Some a -> ns !! j = Some b ->
                   interacts a b = false) ->
  repulsion ns = Ok ns.
Proof.
  intros Hidle.
  destruct (repulsion_spec ns) as (ns' & Hrun & Hlen & Hst).
  rewrite Hrun. f_equal. apply list_eq. intros k.
  destruct (ns !! k) as [n|] eqn:Hk.
  - rewrite (Hst k n Hk). f_equal. apply repelled_idle.
    intros m v Hm. apply partners_other in Hm. unfold contrib. rewrite Hk.
    destruct (ns !! m) as [b|] eqn:Hb; [|reflexivity].
    rewrite (Hidle k m n b) by auto. reflexivity.
  - apply lookup_ge_None. rewrite Hlen. apply lookup_ge_None. assumption.
Qed.

(* Nothing to repel: no node, one node, two nodes more than 9.0 apart,
   and two nodes at distance 0 of which one is frozen. *)
Lemma repulsion_idle_witness :
  repulsion [] = Ok [] /\
  repulsion [nodeA] = Ok [nodeA] /\
  repulsion twoNodes = Ok twoNodes /\
  repulsion [plainNode 4 (vec 1 2 3) (vec 0 0 0) true "intro";
             plainNode 8 (vec 1 2 3) (vec 0 0 0) false "usage"]
  = Ok [plainNode 4 (vec 1 2 3) (vec 0 0 0) true "intro";
        plainNode 8 (vec 1 2 3) (vec 0 0 0) false "usage"].
Proof.
  split; [|split; [|split]]; apply repulsion_idle.
  - intros i j a b _ Ha. discriminate.
  - intros [|i] [|j] a b Hij Ha Hb; simpl in Ha, Hb; try discriminate.
    contradiction Hij; reflexivity.
  - intros [|[|i]] [|[|j]] a b Hij Ha Hb; simpl in Ha, Hb; try discriminate;
      try (contradiction Hij; reflexivity);
      injection Ha as <-; injection Hb as <-.
    + apply (interacts_far _ _ (mkPoint (-3) 1 0) (mkPoint 8 (-2) 1));
        try reflexivity; [exact_squares|]. unfold distSqR; simpl; lra.
    + apply (interacts_far _ _ (mkPoint 8 (-2) 1) (mkPoint (-3) 1 0));
        try reflexivity; [exact_squares|]. unfold distSqR; simpl; lra.
  - intros [|[|i]] [|[|j]] a b Hij Ha Hb; simpl in Ha, Hb; try discriminate;
      try (contradiction Hij; reflexivity);
      injection Ha as <-; injection Hb as <-; reflexivity.
Defined.

















(* --------------------------------------------------------------------- *)
(* L. Opacities                                                          *)
(* --------------------------------------------------------------------- *)

Lemma lerp_finite (o t : R) : lerp (Fin o) (Fin t) smoothing = Fin (ease t o).
Proof. unfold lerp, smoothing, ease. simpl. apply (f_equal Fin). lra. Qed.

Lemma eased_step (t : R) (n : nat) (o : R) :
  eased t (S n) o = eased t n (ease t o).
Proof. unfold eased, ease. simpl. lra. Qed.

Lemma eased_between (t : R) (n : nat) (o : R) :
  (t <= o -> t <= eased t n o <= o) /\ (o <= t -> o <= eased t n o <= t).
Proof.
  assert (H0 : 0 <= 0.9 ^ n) by (apply pow_le; lra).
  assert (H1 : 0.9 ^ n <= 1).
  { rewrite <- (pow1 n). apply pow_incr. lra. }
  unfold eased. split; intros H; split; nra.
Qed.

Lemma animateNode_opacity (time : R) (m : Node) (c : num) :
  crystalOpacity (fst (animateNode time m c))
    = lerp (crystalOpacity m) (Fin (crystalTarget (isFrozen m))) smoothing /\
  spriteOpacity (fst (animateNode time m c))
    = lerp (spriteOpacity m) (Fin (spriteTarget (isFrozen m))) smoothing.
Proof. unfold animateNode. destruct (isFrozen m); simpl; auto. Qed.

(** X6: over any number of frames the two opacities of a node ease
    towards their targets by a tenth of the remaining distance per
    frame: for a node that starts with real opacities o (crystal) and p
    (sprite), after n frames they are T + 0.9^n * (o - T) and
    U + 0.9^n * (p - U), with T = 0.5 and U = 0.9 while the node drifts
    and T = 0.1 and U = 0.05 while it is frozen; the frames leave
    isFrozen as it is, and the opacity never passes its target. *)
Theorem frames_ease_opacity (times : list R) (s : State) :
  exists s',
    frames times s = Ok s' /\
    forall k n o p,
      nodes s !! k = Some n ->
      crystalOpacity n = Fin o -> spriteOpacity n = Fin p ->
      exists n',
        nodes s' !! k = Some n' /\ isFrozen n' = isFrozen n /\
        crystalOpacity n'
          = Fin (eased (crystalTarget (isFrozen n)) (length times) o) /\
        spriteOpacity n'
          = Fin (eased (spriteTarget (isFrozen n)) (length times) p) /\
        (crystalTarget (isFrozen n) <= o ->
           crystalTarget (isFrozen n)
           <= eased (crystalTarget (isFrozen n)) (length times) o <= o) /\
        (o <= crystalTarget (isFrozen n) ->
           o <= eased (crystalTarget (isFrozen n)) (length times) o
             <= crystalTarget (isFrozen n)).
Proof.
  revert s. induction times as [|time rest IH]; intros s.
  - exists s. split; [reflexivity|].
    intros k n o p Hk Ho Hp. exists n. split; [exact Hk|]. split; [reflexivity|].
    unfold eased. simpl.
    split; [rewrite Ho; apply (f_equal Fin); lra|].
    split; [rewrite Hp; apply (f_equal Fin); lra|].
    split; intros; lra.
  - destruct (animate_returns time s) as [s1 Hrun].
    destruct (IH s1) as (s' & Hrest & Hall).
    exists s'. split; [simpl; rewrite Hrun; exact Hrest|].
    intros k n o p Hk Ho Hp.
    destruct (animate_node_at time s s1 k n Hrun Hk) as [c Hn1].
    set (m := repelled (nodes s) k (partners (length (nodes s)) k) n) in *.
    destruct (animateNode_opacity time m c) as [Hco Hso].
    destruct (animateNode_kept time m c) as (_ & _ & _ & _ & Hfr).
    change (isFrozen m) with (isFrozen n) in *.
    change (crystalOpacity m) with (crystalOpacity n) in Hco.
    change (spriteOpacity m) with (spriteOpacity n) in Hso.
    rewrite Ho, lerp_finite in Hco. rewrite Hp, lerp_finite in Hso.
    destruct (Hall k _ _ _ Hn1 Hco Hso) as (n' & Hn' & Hfr' & Hc' & Hs' & _).
    exists n'. split; [exact Hn'|].
    simpl in Hfr. rewrite Hfr in Hfr', Hc', Hs'.
    split; [exact Hfr'|].
    change (length (time :: rest)) with (S (length rest)).
    rewrite !eased_step.
    split; [exact Hc'|]. split; [exact Hs'|].
    rewrite <- eased_step. apply eased_between.
Qed.

(* Two frames after the first node was selected: its crystal has gone
   from 0.5 to 0.1 + 0.81 * 0.4, the crystal of the drifting node stays
   at its target 0.5. *)
Lemma frames_ease_opacity_witness :
  exists s' a b,
    frames [1; 2] firstSelected = Ok s' /\
    nodes s' !! 0%nat = Some a /\ nodes s' !! 1%nat = Some b /\
    crystalOpacity a = Fin (0.1 + 0.9 ^ 2 * (0.5 - 0.1)) /\
    crystalOpacity b = Fin (0.5 + 0.9 ^ 2 * (0.5 - 0.5)).
Proof.
  destruct (frames_ease_opacity [1; 2] firstSelected) as (s' & Hrun & Hall).
  destruct (Hall 0%nat _ 0.5 0.9 eq_refl eq_refl eq_refl) as (a & Ha & _ & Hca & _).
  destruct (Hall 1%nat _ 0.5 0.9 eq_refl eq_refl eq_refl) as (b & Hb & _ & Hcb & _).
  exists s', a, b. repeat split; assumption.
Defined.

Lemma forEachNode_core_drifting (time : R) (ns : list Node) (c : num) :
  (forall k n, ns !! k = Some n -> isFrozen n = false) ->
  snd (forEachNode time ns c) = c.
Proof.
  revert c. induction ns as [|g rest IH]; intros c Hall; [reflexivity|].
  simpl. rewrite IH by (intros k n Hk; apply (Hall (S k) n Hk)).
  unfold animateNode. rewrite (Hall 0%nat g eq_refl). reflexivity.
Qed.

Lemma forEachNode_core_one (time : R) (ns : list Node) (c : num) (a : nat) (n : Node) :
  ns !! a = Some n -> isFrozen n = true ->
  (forall k m, ns !! k = Some m -> isFrozen m = true -> k = a) ->
  snd (forEachNode time ns c) = lerp c (Fin 0.2) smoothing.
Proof.
  revert c a. induction ns as [|g rest IH]; intros c a Ha Hfr Honly; [discriminate|].
  destruct a as [|a]; simpl in Ha.
  - injection Ha as ->. simpl.
    rewrite forEachNode_core_drifting.
    + unfold animateNode. rewrite Hfr. reflexivity.
    + intros k m Hk. destruct (isFrozen m) eqn:Hm; [|reflexivity].
      specialize (Honly (S k) m Hk Hm). discriminate.
  - simpl. rewrite (IH _ a Ha Hfr).
    + unfold animateNode.
      destruct (isFrozen g) eqn:Hg; [|reflexivity].
      specialize (Honly 0%nat g eq_refl Hg). discriminate.
    + intros k m Hk Hm. specialize (Honly (S k) m Hk Hm). lia.
Qed.

(** X7: the cores of all crystals share one material, so a frame dims
    them together: in a state where the frozen nodes are exactly the
    selected one, a frame eases the shared core opacity towards 0.2
    once when a node is selected and leaves it as it is when none is.
    No frame raises it: from a real value of 0.2 or more it stays a
    real value between 0.2 and what it was. *)
Theorem core_opacity_is_shared (time : R) (s : State) :
  selection_invariant s ->
  exists s',
    animate time s = Ok s' /\
    coreOpacity s' =
      match activeNodeGroup s with
      | Some _ => lerp (coreOpacity s) (Fin 0.2) smoothing
      | None => coreOpacity s
      end /\
    (forall c, coreOpacity s = Fin c -> 0.2 <= c ->
       exists c', coreOpacity s' = Fin c' /\ 0.2 <= c' <= c).
Proof.
  intros [Hfro Hact].
  destruct (repulsion_spec (nodes s)) as (ns1 & Hrep & Hlen & Hst).
  assert (Hback : forall k m, ns1 !! k = Some m ->
            exists n, nodes s !! k = Some n /\ isFrozen m = isFrozen n).
  { intros k m Hk.
    destruct (lookup_lt_is_Some_2 (nodes s) k) as [n Hn].
    { rewrite <- Hlen. apply lookup_lt_is_Some_1. eauto. }
    exists n. split; [exact Hn|].
    rewrite (Hst k n Hn) in Hk. injection Hk as <-. reflexivity. }
  assert (Hcore : snd (forEachNode time ns1 (coreOpacity s)) =
            match activeNodeGroup s with
            | Some _ => lerp (coreOpacity s) (Fin 0.2) smoothing
            | None => coreOpacity s
            end).
  { destruct (activeNodeGroup s) as [a|] eqn:Ha.
    - destruct (Hact a eq_refl) as (n & Hn & Hfr).
      apply (forEachNode_core_one time ns1 _ a _ (Hst a n Hn)); [exact Hfr|].
      intros k m Hk Hm. destruct (Hback k m Hk) as (n0 & Hn0 & Heq).
      rewrite Heq in Hm. specialize (Hfro k n0 Hn0 Hm). congruence.
    - apply forEachNode_core_drifting.
      intros k m Hk. destruct (Hback k m Hk) as (n0 & Hn0 & Heq).
      rewrite Heq. destruct (isFrozen n0) eqn:Hm; [|reflexivity].
      specialize (Hfro k n0 Hn0 Hm). discriminate. }
  eexists. split; [unfold animate; rewrite Hrep; reflexivity|].
  simpl. split; [exact Hcore|].
  intros c Hc Hlo. rewrite Hcore, Hc.
  destruct (activeNodeGroup s).
  - rewrite lerp_finite. eexists. split; [reflexivity|]. unfold ease. lra.
  - exists c. split; [reflexivity|]. lra.
Qed.

Lemma firstSelected_invariant : selection_invariant firstSelected.
Proof.
  split.
  - intros [|[|k]] n Hk Hfr; simpl in Hk; try discriminate;
      injection Hk as <-; [reflexivity|discriminate].
  - intros k Hk. injection Hk as <-. eexists. split; reflexivity.
Qed.

(* With the first node selected the shared core opacity goes from 1 to
   0.9 * 1 + 0.1 * 0.2 in one frame. *)
Lemma core_opacity_is_shared_witness :
  selection_invariant firstSelected /\
  exists s', animate 1 firstSelected = Ok s' /\ coreOpacity s' = Fin (ease 0.2 1).
Proof.
  split; [exact firstSelected_invariant|].
  destruct (core_opacity_is_shared 1 firstSelected firstSelected_invariant)
    as (s' & Hrun & Hcore & _).
  exists s'. split; [exact Hrun|].
  rewrite Hcore. simpl activeNodeGroup. cbv iota.
  change (coreOpacity firstSelected) with (Fin 1). apply lerp_finite.
Defined.

(* --------------------------------------------------------------------- *)
(* M. The click handler                                                  *)
(* --------------------------------------------------------------------- *)

Lemma set_isFrozen_same (n : Node) : set_isFrozen (isFrozen n) n = n.
Proof. destruct n; reflexivity. Qed.

Lemma set_isFrozen_twice (b c : bool) (n : Node) :
  set_isFrozen b (set_isFrozen c n) = set_isFrozen b n.
Proof. reflexivity. Qed.

(* What a click does to the nodes, case by case. *)
Lemma onMouseClick_cases (intersects : list Object3D) (s s' : State)
    (out : list Notification) :
  onMouseClick intersects s = Ok (s', out) ->
  (s' = s /\ out = []) \/
  (intersects = [] /\ (s', out) = closeReadingPane s) \/
  (exists hit rest t sid,
     intersects = hit :: rest /\
     resolveTarget (nodes s) hit = Ok (Some (t, sid)) /\
     activeNodeGroup s <> Some t /\
     out = showFor (document s) sid /\
     activeNodeGroup s' = Some t /\
     nodes s' =
       alter (set_isFrozen true) t
         (match activeNodeGroup s with
          | Some a => alter (set_isFrozen false) a (nodes s)
          | None => nodes s
          end) /\
     coreOpacity s' = coreOpacity s /\
     starFieldRotationY s' = starFieldRotationY s /\
     document s' =
       match getElementById (elements (document s)) sid,
             readingContent (document s) with
       | Some html, Some _ => showPane html (document s)
       | _, _ => document s
       end).
Proof.
  intros Hrun. destruct intersects as [|hit rest].
  - right. left. split; [reflexivity|]. simpl in Hrun. congruence.
  - destruct (resolveTarget (nodes s) hit) as [[[t sid]|]|] eqn:Ht.
    + destruct (decide (activeNodeGroup s = Some t)) as [Ha|Ha].
      * rewrite (onMouseClick_same hit rest s t sid Ht Ha) in Hrun.
        left. injection Hrun as <- <-. auto.
      * right. right. exists hit, rest, t, sid.
        unfold onMouseClick, showFor in *. rewrite Ht in Hrun. simpl in Hrun.
        destruct (decide (activeNodeGroup s = Some t)); [contradiction|].
        repeat (split; [first [reflexivity | assumption]|]).
        destruct (activeNodeGroup s) as [a|]; simpl in Hrun;
          destruct (getElementById (elements (document s)) sid);
          try destruct (readingContent (document s));
          injection Hrun as <- <-; simpl; repeat split; reflexivity.
    + rewrite (onMouseClick_unresolved hit rest s Ht) in Hrun.
      left. injection Hrun as <- <-. auto.
    + unfold onMouseClick in Hrun. rewrite Ht in Hrun. discriminate.
Qed.

Lemma onMouseClick_node (intersects : list Object3D) (s s' : State)
    (out : list Notification) (k : nat) (n : Node) :
  onMouseClick intersects s = Ok (s', out) -> nodes s !! k = Some n ->
  exists b, nodes s' !! k = Some (set_isFrozen b n).
Proof.
  intros Hrun Hk.
  destruct (onMouseClick_cases _ _ _ _ Hrun)
    as [[-> _]|[[_ Hc]|(hit & rest & t & sid & _ & _ & _ & _ & _ & Hns & _)]].
  - exists (isFrozen n). rewrite set_isFrozen_same. exact Hk.
  - unfold closeReadingPane in Hc. injection Hc as -> _.
    destruct (activeNodeGroup s) as [a|]; simpl.
    + rewrite list_lookup_alter.
      destruct (decide (a = k)) as [->|_].
      * exists false. rewrite Hk. reflexivity.
      * exists (isFrozen n). rewrite set_isFrozen_same. exact Hk.
    + exists (isFrozen n). rewrite set_isFrozen_same. exact Hk.
  - rewrite Hns, list_lookup_alter.
    assert (Hin : exists b,
              match activeNodeGroup s with
              | Some a => alter (set_isFrozen false) a (nodes s)
              | None => nodes s
              end !! k = Some (set_isFrozen b n)).
    { destruct (activeNodeGroup s) as [a|].
      - rewrite list_lookup_alter.
        destruct (decide (a = k)) as [->|_].
        + exists false. rewrite Hk. reflexivity.
        + exists (isFrozen n). rewrite set_isFrozen_same. exact Hk.
      - exists (isFrozen n). rewrite set_isFrozen_same. exact Hk. }
    destruct Hin as [b Hb].
    destruct (decide (t = k)) as [->|_].
    + exists true. rewrite Hb. reflexivity.
    + exists b. exact Hb.
Qed.

Lemma onMouseClick_rest (intersects : list Object3D) (s s' : State)
    (out : list Notification) :
  onMouseClick intersects s = Ok (s', out) ->
  length (nodes s') = length (nodes s) /\
  coreOpacity s' = coreOpacity s /\
  starFieldRotationY s' = starFieldRotationY s /\
  elements (document s') = elements (document s).
Proof.
  intros Hrun.
  destruct (onMouseClick_cases _ _ _ _ Hrun)
    as [[-> _]|[[_ Hc]|(hit & rest & t & sid & _ & _ & _ & _ & _ & Hns & Hco & Hsf & Hdoc)]].
  - auto.
  - unfold closeReadingPane in Hc. injection Hc as -> _.
    destruct (activeNodeGroup s); simpl; rewrite ?length_alter; auto.
  - rewrite Hns, length_alter, Hco, Hsf, Hdoc.
    split.
    { destruct (activeNodeGroup s); rewrite ?length_alter; reflexivity. }
    repeat split.
    destruct (getElementById _ sid); [destruct (readingContent _)|]; reflexivity.
Qed.

(** X8: a click changes nothing of a node but its isFrozen flag: after
    onMouseClick the array has the same length, every node is the node
    it was with isFrozen set to some value (position, velocity,
    orientation, opacities, id and section id are untouched), and the
    shared core opacity and the star field are as before. *)
Theorem click_changes_isFrozen_only (intersects : list Object3D) (s s' : State)
    (out : list Notification) :
  onMouseClick intersects s = Ok (s', out) ->
  length (nodes s') = length (nodes s) /\
  coreOpacity s' = coreOpacity s /\
  starFieldRotationY s' = starFieldRotationY s /\
  forall k n, nodes s !! k = Some n ->
    exists b, nodes s' !! k = Some (set_isFrozen b n).
Proof.
  intros Hrun.
  destruct (onMouseClick_rest _ _ _ _ Hrun) as (H1 & H2 & H3 & _).
  repeat (split; [assumption|]).
  intros k n Hk. eapply onMouseClick_node; eassumption.
Qed.

(* The selection moves from the first node to the second. *)
Lemma click_changes_isFrozen_only_witness :
  exists s' out,
    onMouseClick [SpriteObj 1] firstSelected = Ok (s', out) /\
    nodes s' = [set_isFrozen false (plainNode 4 (vec (-3) 1 0) (vec 0.001 0 0) true "intro");
                set_isFrozen true (plainNode 8 (vec 8 (-2) 1) (vec 0 0.001 0) false "usage")] /\
    length (nodes s') = 2%nat /\ coreOpacity s' = Fin 1.
Proof.
  eexists _, _. split; [reflexivity|]. split; [reflexivity|].
  destruct (click_changes_isFrozen_only [SpriteObj 1] firstSelected _ _ eq_refl)
    as (Hlen & Hcore & _).
  split; [exact Hlen | exact Hcore].
Defined.

(** X9: selecting a node and then clicking empty space undoes the
    selection.  From a state where nothing is selected and no node is
    frozen, a click that resolves to a node followed by a click that
    meets nothing leaves the array of nodes exactly as it was, nothing
    selected and the pane hidden; the content written into
    #reading-content by the first click is left in place. *)
Theorem select_then_close (hit : Object3D) (rest : list Object3D) (s : State)
    (t : nat) (sid : string) :
  initial s ->
  resolveTarget (nodes s) hit = Ok (Some (t, sid)) ->
  exists s1 out1 s2,
    onMouseClick (hit :: rest) s = Ok (s1, out1) /\
    onMouseClick [] s1 = Ok (s2, [HideContent]) /\
    nodes s2 = nodes s /\
    activeNodeGroup s2 = None /\
    readingPane (document s2) = paneHidden /\
    readingContent (document s2) = readingContent (document s1) /\
    elements (document s2) = elements (document s).
Proof.
  intros [Hact Hunf] Ht.
  assert (Hne : activeNodeGroup s <> Some t) by (rewrite Hact; discriminate).
  destruct (onMouseClick_new hit rest s t sid Ht Hne)
    as (s1 & Hrun1 & Ha1 & Hns1 & Hdoc1).
  rewrite Hact in Hns1.
  exists s1, (showFor (document s) sid).
  eexists. split; [exact Hrun1|].
  split; [unfold onMouseClick, closeReadingPane; reflexivity|].
  rewrite Ha1. simpl.
  split.
  - rewrite Hns1. apply list_eq. intros k.
    rewrite !list_lookup_alter.
    destruct (decide (t = k)) as [->|_]; [|reflexivity].
    destruct (nodes s !! k) as [n|] eqn:Hn;
      [|destruct (decide (k = k)); reflexivity].
    destruct (decide (k = k)) as [_|Hkk]; [|contradiction].
    simpl. f_equal. rewrite set_isFrozen_twice.
    rewrite <- (Hunf k n Hn). apply set_isFrozen_same.
  - repeat split. rewrite Hdoc1.
    destruct (getElementById _ sid); [destruct (readingContent _)|]; reflexivity.
Qed.

Lemma nothingSelected_initial : initial nothingSelected.
Proof.
  split; [reflexivity|].
  intros [|[|k]] n Hk; simpl in Hk; try discriminate; injection Hk as <-; reflexivity.
Qed.

(* A click on the second crystal of the sample page, then a click on
   empty space: the nodes are back, the pane keeps the second section. *)
Lemma select_then_close_witness :
  exists s1 s2,
    onMouseClick [CrystalObj 1] nothingSelected = Ok (s1, [ShowContent "usage"]) /\
    onMouseClick [] s1 = Ok (s2, [HideContent]) /\
    nodes s2 = nodes nothingSelected /\
    activeNodeGroup s2 = None /\
    document s2 = mkDocument samplePage (Some "<h2>Usage</h2>") paneHidden.
Proof.
  destruct (select_then_close (CrystalObj 1) [] nothingSelected 1 "usage"
              nothingSelected_initial eq_refl)
    as (s1 & out1 & s2 & H1 & H2 & Hns & Hact & _).
  exists s1, s2.
  assert (Hs1 : onMouseClick [CrystalObj 1] nothingSelected
                = Ok (s1, [ShowContent "usage"])).
  { rewrite H1. simpl in H1. injection H1 as _ <-. reflexivity. }
  split; [exact Hs1|]. split; [exact H2|]. split; [exact Hns|].
  split; [exact Hact|].
  simpl in Hs1. injection Hs1 as <-. simpl in H2. injection H2 as <-. reflexivity.
Defined.

(* --------------------------------------------------------------------- *)
(* N. The pane follows the selection                                     *)
(* --------------------------------------------------------------------- *)








(* --------------------------------------------------------------------- *)
(* O. What a click can select                                            *)
(* --------------------------------------------------------------------- *)

Lemma part_of_resolves (ns : list Node) (k : nat) (n : Node) (hit : Object3D) :
  ns !! k = Some n -> part_of k hit ->
  resolveTarget ns hit =
    Ok (if String.eqb (originalSectionId n) EmptyString then None
        else Some (k, originalSectionId n)).
Proof.
  intros Hk [-> | [-> | ->]]; unfold resolveTarget; cbn [parent deref bind sectionIdOf];
    rewrite Hk; destruct (String.eqb (originalSectionId n) EmptyString); reflexivity.
Qed.

(** X11: the crystal, the label and the core of a node all stand for
    that node, and a node is selectable exactly when its section has an
    id.  In a state where the frozen nodes are exactly the selected one,
    a click whose first hit is any of the three meshes of node k leaves
    node k selected and frozen when its section id is not empty,
    whatever was selected before and whatever lies behind the hit; when
    the id is empty the click changes nothing at all: the selection and
    the pane stay as they were. *)
Theorem click_on_node_part (s : State) (k : nat) (n : Node)
    (hit : Object3D) (rest : list Object3D) :
  selection_invariant s ->
  nodes s !! k = Some n -> part_of k hit ->
  (originalSectionId n = EmptyString ->
     onMouseClick (hit :: rest) s = Ok (s, [])) /\
  (originalSectionId n <> EmptyString ->
     exists s' out n',
       onMouseClick (hit :: rest) s = Ok (s', out) /\
       activeNodeGroup s' = Some k /\
       nodes s' !! k = Some n' /\ isFrozen n' = true /\
       out = (if decide (activeNodeGroup s = Some k) then []
              else showFor (document s) (originalSectionId n))).
Proof.
  intros [_ Hsel] Hk Hpart.
  pose proof (part_of_resolves (nodes s) k n hit Hk Hpart) as Hres.
  split; intros Hid.
  - rewrite Hid in Hres. simpl in Hres. apply onMouseClick_unresolved. exact Hres.
  - assert (He : String.eqb (originalSectionId n) EmptyString = false)
      by (apply String.eqb_neq; exact Hid).
    rewrite He in Hres.
    destruct (decide (activeNodeGroup s = Some k)) as [Ha|Ha].
    + destruct (Hsel k Ha) as (m & Hm & Hfr).
      exists s, (@nil Notification), m. split; [|auto].
      eapply onMouseClick_same; eassumption.
    + destruct (onMouseClick_new hit rest s k _ Hres Ha) as (s' & Hrun & Ha' & Hns & _).
      assert (Hk' : exists n', nodes s' !! k = Some n' /\ isFrozen n' = true).
      { rewrite Hns, list_lookup_alter_eq.
        destruct (activeNodeGroup s) as [a|].
        - rewrite list_lookup_alter. destruct (decide (a = k)) as [->|_];
            rewrite Hk; simpl; eexists; split; reflexivity.
        - rewrite Hk. simpl. eexists; split; reflexivity. }
      destruct Hk' as (n' & Hn' & Hfr).
      exists s', (showFor (document s) (originalSectionId n)), n'. auto.
Qed.

(* In the sample scene the first node is selected.  A click on the core
   of the second node selects the second node; were the second section
   without id, the same click would be ignored. *)
Lemma click_on_node_part_witness :
  (exists s' n',
     onMouseClick [CoreObj 1; SpriteObj 0] firstSelected
       = Ok (s', [ShowContent "usage"]) /\
     activeNodeGroup s' = Some 1%nat /\
     nodes s' !! 1%nat = Some n' /\ isFrozen n' = true) /\
  onMouseClick [CoreObj 1; SpriteObj 0] secondWithoutId
  = Ok (secondWithoutId, []).
Proof.
  split.
  - destruct (click_on_node_part firstSelected 1
                (plainNode 8 (vec 8 (-2) 1) (vec 0 0.001 0) false "usage")
                (CoreObj 1) [SpriteObj 0]
                firstSelected_invariant eq_refl (or_intror (or_intror eq_refl)))
      as [_ H].
    destruct H as (s' & out & n' & Hrun & Ha & Hn & Hfr & Hout); [discriminate|].
    exists s', n'. rewrite Hrun, Hout. repeat split; assumption.
  - apply (click_on_node_part secondWithoutId 1
             (plainNode 8 (vec 8 (-2) 1) (vec 0 0.001 0) false EmptyString)
             (CoreObj 1) [SpriteObj 0]).
    + split.
      * intros [|[|j]] m Hj Hm; simpl in Hj; try discriminate;
          injection Hj as <-; [reflexivity | discriminate].
      * intros j Hj. injection Hj as <-. eexists. split; reflexivity.
    + reflexivity.
    + right. right. reflexivity.
    + reflexivity.
Defined.

(* --------------------------------------------------------------------- *)
(* P. The pointer in device coordinates                                  *)
(* --------------------------------------------------------------------- *)

(** X12: a pointer inside a window of positive size is handed to the
    ray caster in the square [-1, 1] x [-1, 1]: the left edge maps to
    x = -1 and the right edge to x = 1, the top edge to y = 1 and the
    bottom edge to y = -1 (the vertical axis is flipped), and both
    coordinates are real numbers. *)
Theorem pointer_inside_window (cx cy w h : R) :
  0 < w -> 0 < h -> 0 <= cx <= w -> 0 <= cy <= h ->
  exists mx my,
    pointerNDC (Fin cx) (Fin cy) (Fin w) (Fin h) = (Fin mx, Fin my) /\
    -1 <= mx <= 1 /\ -1 <= my <= 1 /\
    (cx = 0 -> mx = -1) /\ (cx = w -> mx = 1) /\
    (cy = 0 -> my = 1) /\ (cy = h -> my = -1).
Proof.
  intros Hw Hh Hx Hy.
  exists (cx / w * 2 - 1), (- (cy / h) * 2 + 1).
  assert (Hxw : 0 <= cx / w <= 1).
  { split.
    - apply Rmult_le_reg_r with w; [exact Hw|]. unfold Rdiv.
      rewrite Rmult_assoc, Rinv_l by lra. lra.
    - apply Rmult_le_reg_r with w; [exact Hw|]. unfold Rdiv.
      rewrite Rmult_assoc, Rinv_l by lra. lra. }
  assert (Hyh : 0 <= cy / h <= 1).
  { split.
    - apply Rmult_le_reg_r with h; [exact Hh|]. unfold Rdiv.
      rewrite Rmult_assoc, Rinv_l by lra. lra.
    - apply Rmult_le_reg_r with h; [exact Hh|]. unfold Rdiv.
      rewrite Rmult_assoc, Rinv_l by lra. lra. }
  split.
  - unfold pointerNDC, jsub, jdiv.
    destruct (Req_dec_T w 0) as [E|_]; [lra|].
    destruct (Req_dec_T h 0) as [E|_]; [lra|].
    simpl. f_equal; apply (f_equal Fin); lra.
  - split; [lra|]. split; [lra|].
    repeat split; intros E; subst.
    + unfold Rdiv. rewrite Rmult_0_l. lra.
    + unfold Rdiv. rewrite Rinv_r by lra. lra.
    + unfold Rdiv. rewrite Rmult_0_l. lra.
    + unfold Rdiv. rewrite Rinv_r by lra. lra.
Qed.

(* A click in the middle of the top edge of a window of 800 by 600. *)
Lemma pointer_inside_window_witness :
  exists mx my,
    pointerNDC (Fin 400) (Fin 0) (Fin 800) (Fin 600) = (Fin mx, Fin my) /\
    -1 <= mx <= 1 /\ my = 1.
Proof.
  destruct (pointer_inside_window 400 0 800 600) as (mx & my & H & Hx & _ & _ & _ & Hy & _);
    try lra.
  exists mx, my. split; [exact H|]. split; [exact Hx|]. apply Hy. reflexivity.
Defined.

(* --------------------------------------------------------------------- *)
(* Q. The nodes as they are built                                        *)
(* --------------------------------------------------------------------- *)

Lemma spread_range (rnd : nat -> num) (i : nat) (k : R) :
  unit_random rnd -> 0 < k ->
  exists a, spread (rnd i) k = Fin a /\ - (k / 2) <= a < k / 2.
Proof.
  intros Hr Hk. destruct (Hr i) as (r & -> & Hlo & Hhi).
  exists ((r - 0.5) * k). split.
  - unfold spread, jsub. simpl. apply (f_equal Fin). lra.
  - split; nra.
Qed.

Lemma createNode_ranges (index : nat) (section : string * string)
    (gid : nat -> nat) (rnd : nat -> num) :
  unit_random rnd -> in_start_ranges (createNode index section gid rnd).
Proof.
  intros Hr. unfold in_start_ranges, createNode.
  cbn [position velocity rotationSpeed].
  split; [|split].
  - destruct (spread_range rnd (7 * index + 0) 40 Hr) as (a & -> & Ha); [lra|].
    destruct (spread_range rnd (7 * index + 1) 25 Hr) as (b & -> & Hb); [lra|].
    destruct (spread_range rnd (7 * index + 2) 20 Hr) as (c & -> & Hc); [lra|].
    exists a, b, c. split; [reflexivity|]. lra.
  - destruct (spread_range rnd (7 * index + 3) 0.0015 Hr) as (a & -> & Ha); [lra|].
    destruct (spread_range rnd (7 * index + 4) 0.0015 Hr) as (b & -> & Hb); [lra|].
    destruct (spread_range rnd (7 * index + 5) 0.0015 Hr) as (c & -> & Hc); [lra|].
    exists a, b, c. split; [reflexivity|]. lra.
  - destruct (spread_range rnd (7 * index + 6) 0.01 Hr) as (a & -> & Ha); [lra|].
    exists (a + 0.002). split; [reflexivity|]. lra.
Qed.

(* The loop over the sections either builds a node for every section,
   each with the title read from its h2, or throws at a section without
   h2. *)
Lemma buildNodes_outcome (sections : list DetailSection) (gid : nat -> nat)
    (rnd : nat -> num) (index : nat) :
  match buildNodes index sections gid rnd with
  | Ok ns =>
      length ns = length sections /\
      forall k section, sections !! k = Some section ->
        exists title,
          heading section = Some title /\
          ns !! k = Some (createNode (index + k) (sectionId section, title) gid rnd)
  | Throw msg =>
      msg = "TypeError" /\
      exists k section, sections !! k = Some section /\ heading section = None
  end.
Proof.
  revert index. induction sections as [|sec rest IH]; intros index.
  - simpl. split; [reflexivity|]. intros k section Hk. discriminate.
  - cbn [buildNodes]. unfold titleOf.
    destruct (heading sec) as [title|] eqn:Hh; cbn [deref bind].
    + specialize (IH (S index)).
      destruct (buildNodes (S index) rest gid rnd) as [ns|msg]; cbn [bind].
      * destruct IH as [Hlen Hall]. split; [simpl; rewrite Hlen; reflexivity|].
        intros [|k] section Hk; simpl in Hk.
        -- injection Hk as <-. exists title. rewrite Nat.add_0_r.
           split; [exact Hh|reflexivity].
        -- destruct (Hall k section Hk) as (t & Ht & Hn).
           exists t. split; [exact Ht|].
           replace (index + S k)%nat with (S index + k)%nat by lia. exact Hn.
      * destruct IH as (-> & k & section & Hk & Hnone).
        split; [reflexivity|]. exists (S k), section. split; assumption.
    + split; [reflexivity|]. exists 0%nat, sec. split; [reflexivity|assumption].
Qed.

(** X13: what initDetailsScene builds.  Without the container element it
    returns at once and builds nothing; with it, a section without h2
    makes it throw a TypeError (line 165), and otherwise the scene
    starts with one node per section in the order of the page, nothing
    selected and no node frozen: node k carries the id of section k and
    the text of its h2 and, with Math.random() in [0, 1), has a real
    position with x in [-20, 20), y in [-12.5, 12.5), z in [-10, 10),
    every velocity coordinate in [-0.00075, 0.00075) and a rotation
    speed in [-0.003, 0.007). *)
Theorem runInitDetailsScene_outcome (container : bool)
    (sections : list DetailSection) (gid : nat -> nat) (rnd : nat -> num)
    (els : list (string * string))
    (existing : option (PaneStyle * option string)) :
  unit_random rnd ->
  match runInitDetailsScene container sections gid rnd els existing with
  | Ok None => container = false
  | Throw msg =>
      container = true /\ msg = "TypeError" /\
      exists k section, sections !! k = Some section /\ heading section = None
  | Ok (Some s) =>
      container = true /\
      length (nodes s) = length sections /\
      initial s /\
      document s = initDocument els existing /\
      forall k section, sections !! k = Some section ->
        exists n,
          nodes s !! k = Some n /\
          originalSectionId n = sectionId section /\
          heading section = Some (titleText n) /\
          id n = gid k /\
          in_start_ranges n
  end.
Proof.
  intros Hr. unfold runInitDetailsScene.
  destruct container; [|reflexivity].
  pose proof (buildNodes_outcome sections gid rnd 0) as Hb.
  destruct (buildNodes 0 sections gid rnd) as [ns|msg]; cbn [bind].
  - destruct Hb as [Hlen Hall].
    split; [reflexivity|]. split; [exact Hlen|].
    assert (Hnode : forall k section, sections !! k = Some section ->
              exists title, heading section = Some title /\
                ns !! k = Some (createNode k (sectionId section, title) gid rnd))
      by exact Hall.
    split.
    { split; [reflexivity|]. cbn [nodes]. intros k n Hk.
      destruct (lookup_lt_is_Some_2 sections k) as [section Hsec].
      { rewrite <- Hlen. apply lookup_lt_is_Some_1. eauto. }
      destruct (Hnode k section Hsec) as (title & _ & Hn).
      rewrite Hk in Hn. injection Hn as ->. reflexivity. }
    split; [reflexivity|].
    intros k section Hsec. cbn [nodes].
    destruct (Hnode k section Hsec) as (title & Ht & Hn).
    eexists. split; [exact Hn|].
    split; [reflexivity|]. split; [exact Ht|]. split; [reflexivity|].
    apply createNode_ranges. exact Hr.
  - destruct Hb as (Hmsg & Hex). auto.
Qed.

Lemma sampleRandom_unit : unit_random sampleRandom.
Proof.
  intros i. exists (/ (INR i + 2)). split; [reflexivity|].
  pose proof (pos_INR i) as Hi.
  split.
  - left. apply Rinv_0_lt_compat. lra.
  - apply Rmult_lt_reg_r with (INR i + 2); [lra|].
    rewrite Rinv_l by lra. lra.
Qed.

(* The sample page: the second node; the same page without the
   container; the page whose second section holds no h2. *)
Lemma runInitDetailsScene_outcome_witness :
  (exists s n,
     runInitDetailsScene true sampleSections (fun index => (4 + 4 * index)%nat)
       sampleRandom samplePage None = Ok (Some s) /\
     nodes s !! 1%nat = Some n /\
     originalSectionId n = "usage" /\ titleText n = "Usage" /\
     in_start_ranges n) /\
  runInitDetailsScene false sampleSections (fun index => (4 + 4 * index)%nat)
    sampleRandom samplePage None = Ok None /\
  runInitDetailsScene true sectionsWithoutHeading
    (fun index => (4 + 4 * index)%nat) sampleRandom samplePage None
  = Throw "TypeError".
Proof.
  split; [|split; reflexivity].
  pose proof (runInitDetailsScene_outcome true sampleSections
                (fun index => (4 + 4 * index)%nat) sampleRandom samplePage None
                sampleRandom_unit) as H.
  destruct (runInitDetailsScene true sampleSections
              (fun index => (4 + 4 * index)%nat) sampleRandom samplePage None)
    as [[s|]|msg] eqn:E.
  - destruct H as (_ & _ & _ & _ & Hall).
    destruct (Hall 1%nat (mkDetailSection "usage" (Some "Usage")) eq_refl)
      as (n & Hn & Hsid & Htitle & _ & Hrange).
    exists s, n. split; [reflexivity|]. split; [exact Hn|].
    split; [exact Hsid|]. split; [|exact Hrange].
    simpl in Htitle. injection Htitle as <-. reflexivity.
  - discriminate.
  - discriminate.
Defined.

(* --------------------------------------------------------------------- *)
(* R. The crystals keep turning                                          *)
(* --------------------------------------------------------------------- *)


